(** * AISolxplorer: transaction-instruction interpretation, embedded in Rocq

    A shallow embedding of the TypeScript modules that interpret a decoded
    Solana transaction:

    - tokensMetadataManager.ts: [TokenMetadataManager], a process-wide
      singleton that owns [metadataCache];
    - instructionProcessor.ts: [classifyAndExtractInstructions] and the
      helpers it calls, with the registry [KNOWN_PROGRAMS];
    - the earlier variant of the instruction processor kept beside it
      ([Legacy]).

    JavaScript values are modelled as the code uses them. Numbers are IEEE
    binary64 values (the Standard Library's [spec_float], whose arithmetic
    is carried out exactly on integers) and are printed by an executable
    rendering of Number::toString; strings are [string]; a property that
    may be missing is an [option]; [Map<string, any>] is a [gmap string _].
    Every [await] in the source is reached in program order, so effects are
    threaded through an explicit state, with exceptions. *)

From Stdlib Require Import ZArith String Ascii List Lia Bool.
From Stdlib Require Import Floats.SpecFloat.
From stdpp Require Import gmap strings list.

Import ListNotations.
Local Open Scope string_scope.
Local Open Scope Z_scope.

(** ** JavaScript numbers *)

Module JsNumber.

(** A JavaScript Number is a binary64 value with a single NaN. *)
Abbreviation number := spec_float.

Definition prec : Z := 53.
Definition emax : Z := 1024.

Definition NaN : number := S754_nan.

(** The Number nearest to an integer (ties to even), as a numeric literal
    or a JSON number denotes it. *)
Definition of_Z (z : Z) : number := binary_normalize prec emax z 0 false.

(** The operator [/] on Numbers. *)
Definition div (x y : number) : number := SFdiv prec emax x y.

(** [x === y] on Numbers: NaN differs from everything, the two zeros are
    equal. *)
Definition strict_eq (x y : number) : bool := SFeqb x y.

(** ToBoolean on a Number: false for NaN, +0 and -0. *)
Definition truthy (x : number) : bool :=
  match x with
  | S754_nan | S754_zero _ => false
  | _ => true
  end.

(** The Number nearest to [s * 10^q] for an integer [s >= 0]: what
    reading the decimal text "s e q" produces. For a negative [q] the
    quotient [s / 10^(-q)] is rounded once, from the integer quotient and
    the position of the remainder. *)
Definition of_decimal (s q : Z) : number :=
  if 0 <=? q then of_Z (s * 10 ^ q)
  else
    match s with
    | Z0 => S754_zero false
    | _ =>
        let '(mz, ez, lz) := SFdiv_core_binary prec emax s 0 (10 ^ (- q)) 0 in
        binary_round_aux prec emax false mz ez lz
    end.

(** The Number nearest to [10^d]. For [d <= 22] it is [10^d] itself, and
    it is what [Math.pow(10, d)] returns; for larger exponents the
    runtime's result may differ from it in the last place (see
    [Math_pow10]). *)
Definition pow10 (d : N) : number := of_Z (10 ^ Z.of_N d).

(** *** Number::toString (radix 10), after ECMA-262 6.1.6.1.20 *)

(** [k] decimal digits of [s], most significant first. *)
Fixpoint digits (k : nat) (s : Z) : string :=
  match k with
  | O => EmptyString
  | S k' =>
      digits k' (s / 10)
      ++ String (ascii_of_nat (48 + Z.to_nat (s mod 10))) EmptyString
  end.

(** Number of decimal digits of a positive integer. *)
Fixpoint count_digits (fuel : nat) (s : Z) : nat :=
  match fuel with
  | O => O
  | S f => if s <? 10 then 1%nat else S (count_digits f (s / 10))
  end.

Definition nat_digits (n : Z) : string :=
  digits (count_digits 400 n) n.

Fixpoint zeros (k : nat) : string :=
  match k with
  | O => EmptyString
  | S k' => String "0" (zeros k')
  end.

(** [10^n <= num/den] for positive [num], [den]. *)
Definition pow10_le (n num den : Z) : bool :=
  if 0 <=? n then 10 ^ n * den <=? num else den <=? num * 10 ^ (- n).

(** The integer [n] with [10^(n-1) <= num/den < 10^n], reached from an
    estimate. *)
Fixpoint magnitude (fuel : nat) (n num den : Z) : Z :=
  match fuel with
  | O => n
  | S f =>
      if negb (pow10_le (n - 1) num den) then magnitude f (n - 1) num den
      else if pow10_le n num den then magnitude f (n + 1) num den
      else n
  end.

(** Step 5 of Number::toString: the integers [(s, n)] and the digit
    count [k], with [k] as small as possible such that [s * 10^(n-k)]
    reads back as [x]; of two candidates the one closest to [x], the even
    one on a tie. [x] is [num/den]. *)
Fixpoint shortest (fuel : nat) (k : nat) (x : number) (n0 num den : Z)
  : Z * Z * nat :=
  let q := n0 - Z.of_nat k in
  let a := if 0 <=? q then num else num * 10 ^ (- q) in
  let b := if 0 <=? q then den * 10 ^ q else den in
  let lo := a / b in
  let r := a mod b in
  let hi := lo + 1 in
  let norm s :=
    if s =? 10 ^ Z.of_nat k then (10 ^ (Z.of_nat k - 1), n0 + 1, k)
    else (s, n0, k) in
  match fuel with
  | O => norm lo
  | S f =>
      let oklo := SFeqb (of_decimal lo q) x in
      let okhi := SFeqb (of_decimal hi q) x in
      if r =? 0 then norm lo
      else if oklo && okhi then
        match 2 * r ?= b with
        | Lt => norm lo
        | Gt => norm hi
        | Eq => if Z.even lo then norm lo else norm hi
        end
      else if oklo then norm lo
      else if okhi then norm hi
      else shortest f (S k) x n0 num den
  end.

Definition exponent_part (e : Z) : string :=
  "e" ++ (if 0 <=? e then "+" else "-") ++ nat_digits (Z.abs e).

(** Steps 6 to 10: the layout chosen from [n] and [k]. *)
Definition layout (s n : Z) (k : nat) : string :=
  let kz := Z.of_nat k in
  let ds := digits k s in
  if (kz <=? n) && (n <=? 21) then
    ds ++ zeros (Z.to_nat (n - kz))
  else if (0 <? n) && (n <=? 21) then
    substring 0 (Z.to_nat n) ds ++ "." ++ substring (Z.to_nat n) (k - Z.to_nat n) ds
  else if (-6 <? n) && (n <=? 0) then
    "0." ++ zeros (Z.to_nat (- n)) ++ ds
  else if (k =? 1)%nat then
    ds ++ exponent_part (n - 1)
  else
    substring 0 1 ds ++ "." ++ substring 1 (k - 1) ds ++ exponent_part (n - 1).

Definition toString_pos (m : positive) (e : Z) : string :=
  let num := if 0 <=? e then Zpos m * 2 ^ e else Zpos m in
  let den := if 0 <=? e then 1 else 2 ^ (- e) in
  let est := ((Z.log2 num - Z.log2 den) * 30103) / 100000 in
  let n0 := magnitude 8 est num den in
  let '(s, n, k) := shortest 17 1 (S754_finite false m e) n0 num den in
  layout s n k.

Definition toString (x : number) : string :=
  match x with
  | S754_nan => "NaN"
  | S754_zero _ => "0"
  | S754_infinity false => "Infinity"
  | S754_infinity true => "-Infinity"
  | S754_finite false m e => toString_pos m e
  | S754_finite true m e => "-" ++ toString_pos m e
  end.

End JsNumber.

Import JsNumber.

(** ** JavaScript values the modules rely on *)

(** A string-valued property that may be [undefined]: ToBoolean is false
    for [undefined] and for the empty string. *)
Definition str_truthy (v : option string) : bool :=
  match v with
  | Some s => negb (String.eqb s "")
  | None => false
  end.

(** [a || b] on such properties. *)
Definition str_or (a b : option string) : option string :=
  if str_truthy a then a else b.

(** A value inside a template literal: [undefined] prints as its name. *)
Definition template (v : option string) : string :=
  match v with
  | Some s => s
  | None => "undefined"
  end.

(** A numeric property of a decoded instruction: a Number, or the string of
    decimal digits by which the RPC encodes a 64-bit amount. *)
Inductive Numeric :=
| Num (x : number)
| Digits (n : N).

(** ToNumber, as the operator [/] applies it to its operands. *)
Definition ToNumber (v : option Numeric) : number :=
  match v with
  | None => NaN
  | Some (Num x) => x
  | Some (Digits n) => of_Z (Z.of_N n)
  end.

(** ToBoolean, as an [if] applies it: a digit string is never empty. *)
Definition ToBoolean (v : option Numeric) : bool :=
  match v with
  | None => false
  | Some (Num x) => truthy x
  | Some (Digits _) => true
  end.

(** ** Effects: the shared cache, the clock and the account lookups *)

(** What [getMintInfo] reads off the parsed account data. *)
Record MintInfo := {
  mint_decimals : option N;
  mint_supply : option string;
  mint_isInitialized : option bool
}.

(** The fields copied from a deserialized Metaplex metadata account. *)
Record MetaplexData := {
  data_name : string;
  data_symbol : string;
  data_uri : string;
  data_sellerFeeBasisPoints : Z;
  data_creators : option (list string);
  mp_collection : option string;
  mp_uses : option string
}.

(** The object [getTokenMetadata] returns. The seven Metaplex fields are
    set together or not at all. *)
Record TokenMetadata := {
  md_address : option string;
  md_type : string;
  md_timestamp : option Z;
  md_decimals : option N;
  md_supply : option string;
  md_isInitialized : option bool;
  md_metaplex : option MetaplexData;
  md_isNFT : option bool;
  md_error : option string
}.

(** Everything outside the process. Each external interaction advances the
    state's [tick]; the answer may depend on it, so sources may fail and
    recover and the clock may move between any two readings.
    [getParsedAccountInfo] answers [None] when the address is not a public
    key, the request fails, the account is missing or its data is not
    parsed. [bs58_utf8] is base58 decoding followed by UTF-8 reading, [None]
    when the decoder throws. [runtime_pow10] is what the runtime's
    [Math.pow(10, d)] returns for an exponent above 22, where the language
    leaves the last place of the result to the implementation. *)
Record World := {
  Date_now : nat -> Z;
  getParsedAccountInfo : nat -> string -> option MintInfo;
  getMetaplexAccount : nat -> string -> option MetaplexData;
  bs58_utf8 : string -> option string;
  runtime_pow10 : N -> number
}.

(** [Math.pow(10, d)] for a natural exponent: [10^d] exactly while that is
    a Number (every [d <= 22]), the runtime's approximation beyond. *)
Definition Math_pow10 (w : World) (d : N) : number :=
  if (d <=? 22)%N then pow10 d else runtime_pow10 w d.

(** The singleton's [metadataCache], the interaction counter, and a log of
    the invocations of the two lookups. *)
Record State := {
  metadataCache : gmap string TokenMetadata;
  tick : nat;
  mintLookups : list (option string);
  metaplexLookups : list (option string)
}.

Definition initial : State :=
  {| metadataCache := ∅; tick := 0; mintLookups := []; metaplexLookups := [] |}.

Definition next_tick (s : State) : State :=
  {| metadataCache := metadataCache s; tick := S (tick s);
     mintLookups := mintLookups s; metaplexLookups := metaplexLookups s |}.

Definition log_mint (a : option string) (s : State) : State :=
  {| metadataCache := metadataCache s; tick := tick s;
     mintLookups := mintLookups s ++ [a]; metaplexLookups := metaplexLookups s |}.

Definition log_metaplex (a : option string) (s : State) : State :=
  {| metadataCache := metadataCache s; tick := tick s;
     mintLookups := mintLookups s; metaplexLookups := metaplexLookups s ++ [a] |}.

Definition cache_set (k : string) (m : TokenMetadata) (s : State) : State :=
  {| metadataCache := <[k := m]> (metadataCache s); tick := tick s;
     mintLookups := mintLookups s; metaplexLookups := metaplexLookups s |}.

(** [clearCache()] *)
Definition clearCache (s : State) : State :=
  {| metadataCache := ∅; tick := tick s;
     mintLookups := mintLookups s; metaplexLookups := metaplexLookups s |}.

(** A computation either completes normally or throws. *)
Inductive Completion (A : Type) :=
| Normal (a : A)
| Throw (e : string).
Arguments Normal {A} a.
Arguments Throw {A} e.

Definition M (A : Type) : Type := State -> Completion A * State.

Definition ret {A} (a : A) : M A := fun s => (Normal a, s).

Definition throw {A} (e : string) : M A := fun s => (Throw e, s).

Definition bind {A B} (c : M A) (k : A -> M B) : M B :=
  fun s =>
    match c s with
    | (Normal a, s') => k a s'
    | (Throw e, s') => (Throw e, s')
    end.

(** [try { c } catch (error) { h }] where the handler cannot throw. *)
Definition try_catch {A} (c : M A) (h : string -> State -> A * State)
  : State -> A * State :=
  fun s =>
    match c s with
    | (Normal a, s') => (a, s')
    | (Throw e, s') => h e s'
    end.

(** A computation that cannot throw, used inside one that can. *)
Definition lift {A} (c : State -> A * State) : M A :=
  fun s => let '(a, s') := c s in (Normal a, s').

Definition of_completion {A} (c : Completion A) : M A := fun s => (c, s).

Declare Scope js_scope.
Delimit Scope js_scope with js.
Notation "'let!' x ':=' c 'in' k" := (bind c (fun x => k))
  (at level 10, x name, c at level 100, k at level 200) : js_scope.
Local Open Scope js_scope.

(** ** tokensMetadataManager.ts *)

Module TokenMetadataManager.

(** [Date.now()] *)
Definition now (w : World) : M Z :=
  fun s => (Normal (Date_now w (tick s)), next_tick s).

(** [getMintInfo]: every failure inside is caught and turned into
    [null]. The public-key constructor rejects [undefined] before any
    request is made. *)
Definition getMintInfo (w : World) (mintAddress : option string)
  : M (option MintInfo) :=
  fun s =>
    let s' := next_tick (log_mint mintAddress s) in
    match mintAddress with
    | None => (Normal None, s')
    | Some a => (Normal (getParsedAccountInfo w (tick s) a), s')
    end.

(** [getMetaplexMetadata]: [null] when the account is missing or
    anything inside throws. *)
Definition getMetaplexMetadata (w : World) (mintAddress : option string)
  : M (option MetaplexData) :=
  fun s =>
    let s' := next_tick (log_metaplex mintAddress s) in
    match mintAddress with
    | None => (Normal None, s')
    | Some a => (Normal (getMetaplexAccount w (tick s) a), s')
    end.

Definition cacheKey (mintAddress : option string) (tokenType : string) : string :=
  template mintAddress ++ "-" ++ tokenType.

(** One hour, in milliseconds. *)
Definition TTL : Z := 3600000.

(** [Date.now() - cachedMetadata.timestamp < 3600000]; with no timestamp
    the difference is NaN and the comparison is false. *)
Definition within_ttl (t : Z) (m : TokenMetadata) : bool :=
  match md_timestamp m with
  | Some ts => t - ts <? TTL
  | None => false
  end.

Definition with_mint (m : TokenMetadata) (i : MintInfo) : TokenMetadata :=
  {| md_address := md_address m; md_type := md_type m;
     md_timestamp := md_timestamp m;
     md_decimals := mint_decimals i; md_supply := mint_supply i;
     md_isInitialized := mint_isInitialized i;
     md_metaplex := md_metaplex m; md_isNFT := md_isNFT m;
     md_error := md_error m |}.

Definition with_metaplex (m : TokenMetadata) (d : MetaplexData) : TokenMetadata :=
  {| md_address := md_address m; md_type := md_type m;
     md_timestamp := md_timestamp m;
     md_decimals := md_decimals m; md_supply := md_supply m;
     md_isInitialized := md_isInitialized m;
     md_metaplex := Some d; md_isNFT := md_isNFT m;
     md_error := md_error m |}.

Definition with_isNFT (m : TokenMetadata) (b : bool) : TokenMetadata :=
  {| md_address := md_address m; md_type := md_type m;
     md_timestamp := md_timestamp m;
     md_decimals := md_decimals m; md_supply := md_supply m;
     md_isInitialized := md_isInitialized m;
     md_metaplex := md_metaplex m; md_isNFT := Some b;
     md_error := md_error m |}.

(** [mintInfo.decimals === 0 && mintInfo.supply === '1'] *)
Definition looks_like_nft (i : MintInfo) : bool :=
  match mint_decimals i, mint_supply i with
  | Some d, Some sup => (d =? 0)%N && String.eqb sup "1"
  | _, _ => false
  end.

(** The part of [getTokenMetadata] after a cache miss, inside [try]. *)
Definition fetch (w : World) (mintAddress : option string) (tokenType : string)
  : M TokenMetadata :=
  let! t := now w in
  let metadata :=
    {| md_address := mintAddress; md_type := tokenType;
       md_timestamp := Some t;
       md_decimals := None; md_supply := None; md_isInitialized := None;
       md_metaplex := None; md_isNFT := None; md_error := None |} in
  let! mintInfo := getMintInfo w mintAddress in
  match mintInfo with
  | None => throw "Failed to fetch mint info"
  | Some mintInfo =>
      let metadata := with_mint metadata mintInfo in
      let! metadata :=
        (if String.eqb tokenType "NFT" || String.eqb tokenType "SPL" then
           let! metaplexData := getMetaplexMetadata w mintAddress in
           match metaplexData with
           | Some d => ret (with_metaplex metadata d)
           | None => ret metadata
           end
         else ret metadata) in
      let metadata :=
        if String.eqb tokenType "NFT"
        then with_isNFT metadata (looks_like_nft mintInfo)
        else metadata in
      fun s =>
        (Normal metadata, cache_set (cacheKey mintAddress tokenType) metadata s)
  end.

(** The body of the [try] block. The clock is read for the freshness
    test only when the key is present. *)
Definition lookup_or_fetch (w : World) (mintAddress : option string)
  (tokenType : string) : M TokenMetadata :=
  fun s =>
    match metadataCache s !! cacheKey mintAddress tokenType with
    | Some cachedMetadata =>
        (let! t := now w in
         if within_ttl t cachedMetadata then ret cachedMetadata
         else fetch w mintAddress tokenType) s
    | None => fetch w mintAddress tokenType s
    end.

(** The record built in the [catch] block. *)
Definition failure (mintAddress : option string) (tokenType : string)
  : TokenMetadata :=
  {| md_address := mintAddress; md_type := tokenType;
     md_timestamp := None;
     md_decimals := None; md_supply := None; md_isInitialized := None;
     md_metaplex := None; md_isNFT := None;
     md_error := Some "Failed to fetch metadata" |}.

Definition getTokenMetadata (w : World) (mintAddress : option string)
  (tokenType : string) : State -> TokenMetadata * State :=
  try_catch (lookup_or_fetch w mintAddress tokenType)
            (fun _ s => (failure mintAddress tokenType, s)).

End TokenMetadataManager.

Import TokenMetadataManager.

(** ** instructionProcessor.ts: the data *)

(** [instruction.programId]: a [PublicKey] object (given by its base58
    text) or, failing the [instanceof] test, a plain string. Account
    references have the same two shapes. *)
Inductive Address :=
| PublicKey (base58 : string)
| PlainText (s : string).

Definition toBase58_or_toString (a : Address) : string :=
  match a with
  | PublicKey b => b
  | PlainText s => s
  end.

(** [parsed.info.tokenAmount] *)
Record TokenAmount := {
  ta_decimals : N;
  ta_uiAmount : option number
}.

(** The fields of [parsed.info] that the processor reads. *)
Record Info := {
  mint : option string;
  token : option string;
  authority : option string;
  source : option string;
  destination : option string;
  from : option string;
  to : option string;
  lamports : option Numeric;
  amount : option Numeric;
  tokenAmount : option TokenAmount
}.

(** [instruction.parsed]. For a program whose parsed form is a bare string
    (a memo) both properties are [undefined]. *)
Record Parsed := {
  type : option string;
  info : option Info
}.

Record ParsedInstruction := {
  program : string;
  programId : Address;
  parsed : Parsed
}.

Record PartiallyDecodedInstruction := {
  pd_programId : Address;
  accounts : list Address;
  data : string
}.

(** [INSTRUCTION_TYPE]; the test ['parsed' in instruction] tells the two
    apart. *)
Inductive INSTRUCTION_TYPE :=
| IsParsed (instruction : ParsedInstruction)
| IsPartiallyDecoded (instruction : PartiallyDecodedInstruction).

(** An entry of [tx.meta.innerInstructions]. *)
Record InnerInstructions := {
  index : nat;
  inner_instructions : list INSTRUCTION_TYPE
}.

(** What the processor reads of a [ParsedTransactionWithMeta];
    [tx_innerInstructions] is [None] when [tx.meta] or its
    [innerInstructions] is missing. *)
Record Transaction := {
  tx_instructions : list INSTRUCTION_TYPE;
  tx_innerInstructions : option (list InnerInstructions)
}.

(** The result of reading a property of an object literal whose values are
    strings: an own property, a member inherited from [Object.prototype]
    (a function or object, always truthy), or [undefined]. *)
Inductive JsValue :=
| JString (s : string)
| JInherited (member : string)
| JUndefined.

Definition object_prototype_members : list string :=
  [ "constructor"; "hasOwnProperty"; "isPrototypeOf"; "propertyIsEnumerable";
    "toLocaleString"; "toString"; "valueOf"; "__proto__";
    "__defineGetter__"; "__defineSetter__"; "__lookupGetter__";
    "__lookupSetter__" ].

Definition includes (x : string) (l : list string) : bool :=
  existsb (String.eqb x) l.

Fixpoint own (table : list (string * string)) (key : string) : option string :=
  match table with
  | [] => None
  | (k, v) :: rest => if String.eqb k key then Some v else own rest key
  end.

(** [table[key]] *)
Definition get (table : list (string * string)) (key : string) : JsValue :=
  match own table key with
  | Some v => JString v
  | None =>
      if includes key object_prototype_members then JInherited key
      else JUndefined
  end.

Definition of_option (v : option string) : JsValue :=
  match v with
  | Some s => JString s
  | None => JUndefined
  end.

Definition value_truthy (v : JsValue) : bool :=
  match v with
  | JString s => negb (String.eqb s "")
  | JInherited _ => true
  | JUndefined => false
  end.

(** [a || b] *)
Definition value_or (a b : JsValue) : JsValue :=
  if value_truthy a then a else b.

(** An entry of [KNOWN_PROGRAMS], or the record [getProgramInfo] makes up
    for an unknown program (which has no [id]). [instructions] holds the
    label table, the key ["default"] included. *)
Record ProgramInfo := {
  id : option string;
  name : string;
  instructions : list (string * string)
}.

Definition known (i n : string) (t : list (string * string)) : ProgramInfo :=
  {| id := Some i; name := n; instructions := t |}.

Definition SYSTEM_PROGRAM : ProgramInfo :=
  known "11111111111111111111111111111111" "System Program"
    [ ("transfer", "Transfer SOL");
      ("transferWithSeed", "Transfer SOL with Seed");
      ("allocate", "Allocate Space");
      ("allocateWithSeed", "Allocate Space with Seed");
      ("assign", "Assign Account");
      ("assignWithSeed", "Assign Account with Seed");
      ("createAccount", "Create Account");
      ("createAccountWithSeed", "Create Account with Seed");
      ("advance_nonce_account", "Advance Nonce Account");
      ("withdraw_nonce_account", "Withdraw from Nonce Account");
      ("initialize_nonce_account", "Initialize Nonce Account");
      ("authorize_nonce_account", "Authorize Nonce Account") ].

Definition TOKEN_PROGRAM : ProgramInfo :=
  known "TokenkegQfeZyiNwAJbNbGKPFXCWuBvf9Ss623VQ5DA" "Token Program"
    [ ("transfer", "Transfer Tokens");
      ("transferChecked", "Transfer Tokens (Checked)");
      ("mintTo", "Mint Tokens");
      ("mintToChecked", "Mint Tokens (Checked)");
      ("burn", "Burn Tokens");
      ("burnChecked", "Burn Tokens (Checked)");
      ("approve", "Approve Token Delegation");
      ("revoke", "Revoke Token Delegation");
      ("setAuthority", "Set Authority");
      ("closeAccount", "Close Token Account");
      ("freezeAccount", "Freeze Account");
      ("thawAccount", "Thaw Account");
      ("syncNative", "Sync Native");
      ("initializeMint", "Initialize Mint");
      ("initializeAccount", "Initialize Token Account") ].

Definition ASSOCIATED_TOKEN : ProgramInfo :=
  known "ATokenGPvbdGVxr1b2hvZbsiqW5xWH25efTNsLJA8knL" "Associated Token Program"
    [ ("create", "Create Associated Token Account");
      ("createIdempotent", "Create Associated Token Account (Idempotent)");
      ("recover", "Recover Nested Token Account") ].

Definition METADATA_PROGRAM : ProgramInfo :=
  known "metaqbxxUerdq28cj1RbAWkYQm3ybzjb6a8bt518x1s" "Token Metadata Program"
    [ ("createMetadataAccount", "Create Metadata Account");
      ("updateMetadataAccount", "Update Metadata Account");
      ("createMasterEdition", "Create Master Edition");
      ("verifyCollection", "Verify Collection");
      ("setAndVerifyCollection", "Set and Verify Collection");
      ("unverifyCollection", "Unverify Collection");
      ("burnNft", "Burn NFT");
      ("verifyCreator", "Verify Creator");
      ("unverifyCreator", "Unverify Creator") ].

Definition JUPITER : ProgramInfo :=
  known "JUP4Fb2cqiRUcaTHdrPC8h2gNsA2ETXiPDD33WcGuJB" "Jupiter Aggregator v6"
    [ ("default", "Swap Tokens") ].

Definition RAYDIUM_V4 : ProgramInfo :=
  known "675kPX9MHTjS2zt1qfr1NYHuzeLXfQM9H24wFSUt1Mp8" "Raydium Liquidity Pool V4"
    [ ("default", "Swap Tokens") ].

Definition ORCA_WHIRLPOOL : ProgramInfo :=
  known "whirLbMiicVdio4qvUfM5KAg6Ct8VwpYzGff3uctyCc" "Orca Whirlpool"
    [ ("default", "Swap Tokens") ].

Definition STAKE_PROGRAM : ProgramInfo :=
  known "Stake11111111111111111111111111111111111111" "Stake Program"
    [ ("initialize", "Initialize Stake Account");
      ("delegate", "Delegate Stake");
      ("withdraw", "Withdraw Stake");
      ("deactivate", "Deactivate Stake");
      ("split", "Split Stake");
      ("merge", "Merge Stake");
      ("authorizeWithSeed", "Authorize with Seed") ].

Definition MARINADE : ProgramInfo :=
  known "MarBmsSgKXdrN1egZf5sqe1TMai9K1rChYNDJgjq7aD" "Marinade.Finance"
    [ ("default", "Stake SOL") ].

Definition SERUM_V3 : ProgramInfo :=
  known "9xQeWvG816bUx9EPjHmaT23yvVM2ZWbrrpZb9PusVFin" "Serum DEX v3"
    [ ("default", "DEX Operation") ].

Definition COMPUTE_BUDGET : ProgramInfo :=
  known "ComputeBudget111111111111111111111111111111" "Compute Budget Program"
    [ ("default", "Set Compute Unit Limit") ].

Definition MAGIC_EDEN_V2 : ProgramInfo :=
  known "M2mx93ekt1fmXSVkTrUL9xVFHkmME8HTUi5Cyc5aF7K" "Magic Eden v2"
    [ ("default", "Magic Eden Operation") ].

Definition TOKEN_AUTH_RULES : ProgramInfo :=
  known "auth9SigNpDKz4sJJ1DfCTuZrZNSAgh9sFD3rboVmgg" "Token Auth Rules"
    [ ("default", "Token Authorization Rules") ].

Definition MEMO_PROGRAM : ProgramInfo :=
  known "MemoSq4gqABAXKb96qnH8TysNcWxMyWCqXgDLGmfcHr" "Memo Program"
    [ ("default", "Add Memo") ].

(** [Object.values(KNOWN_PROGRAMS)] *)
Definition KNOWN_PROGRAMS : list ProgramInfo :=
  [ SYSTEM_PROGRAM; TOKEN_PROGRAM; ASSOCIATED_TOKEN; METADATA_PROGRAM;
    JUPITER; RAYDIUM_V4; ORCA_WHIRLPOOL; STAKE_PROGRAM; MARINADE; SERUM_V3;
    COMPUTE_BUDGET; MAGIC_EDEN_V2; TOKEN_AUTH_RULES; MEMO_PROGRAM ].

(** [new Map(entries)]: a later entry replaces an earlier one with the same
    key. *)
Definition PROGRAM_ID_MAP : gmap string ProgramInfo :=
  fold_left (fun m p => <[template (id p) := p]> m) KNOWN_PROGRAMS ∅.

Definition getProgramInfo (programId : Address) : ProgramInfo :=
  let programAddress := toBase58_or_toString programId in
  match PROGRAM_ID_MAP !! programAddress with
  | Some p => p
  | None =>
      {| id := None;
         name := "Unknown Program (" ++ programAddress ++ ")";
         instructions := [ ("default", "Unknown Instruction") ] |}
  end.

(** [bs58.decode(data).toString('utf8')], the data itself when decoding
    throws. *)
Definition decodeInstructionData (w : World) (data : string) : string :=
  match bs58_utf8 w data with
  | Some text => text
  | None => data
  end.

Definition findKnownProgram (programId : string) : option ProgramInfo :=
  find (fun p => match id p with
                 | Some i => String.eqb i programId
                 | None => false
                 end) KNOWN_PROGRAMS.

(** [program.instructions[type] || type || 'Unknown Instruction'] *)
Definition getInstructionName (program : ProgramInfo) (type : option string)
  : JsValue :=
  value_or (value_or (get (instructions program) (template type))
                     (of_option type))
           (JString "Unknown Instruction").

(** [params]: the parsed [info] itself, the empty object, or the pair built
    for a partially decoded instruction. *)
Inductive Params :=
| ParamsInfo (i : Info)
| ParamsEmpty
| ParamsRaw (data : string) (accounts : list string).

#[local] Set Warnings "-register-all".
Inductive InstructionDetail := {
  programName : string;
  instructionName : JsValue;
  params : Params;
  innerInstructions : list InstructionDetail
}.

Inductive TokenType := Native | SPL | NFT.

(** [token]: the fixed descriptor of the native coin, or resolved
    metadata. *)
Inductive TokenDescriptor :=
| SOL_9_decimals
| Resolved (m : TokenMetadata).

Record TRANSFERS := {
  tokenType : TokenType;
  tr_token : TokenDescriptor;
  tr_from : option string;
  tr_to : option string;
  value : option string;
  tokenId : option string
}.

Record ExtractedData := {
  programInteractions : list string;
  actions : list InstructionDetail;
  otherInstructions : list InstructionDetail;
  types : list JsValue;
  transfers : list TRANSFERS
}.

(** ** instructionProcessor.ts: the functions *)

(** Reading a property of [parsed.info] throws a TypeError when [info] is
    [undefined]. *)
Definition info_of (instruction : ParsedInstruction) : Completion Info :=
  match info (parsed instruction) with
  | Some i => Normal i
  | None => Throw "TypeError: Cannot read properties of undefined"
  end.

Definition type_is (instruction : ParsedInstruction) (tag : string) : bool :=
  match type (parsed instruction) with
  | Some t => String.eqb t tag
  | None => false
  end.

(** [tokenMetadata.decimals || 9] *)
Definition decimals_or_9 (tokenMetadata : TokenMetadata) : N :=
  match md_decimals tokenMetadata with
  | Some 0%N | None => 9%N
  | Some d => d
  end.

(** The [value] computed by [parseTokenTransfer]. [uiAmount.toString()]
    throws a TypeError when [uiAmount] is [null]. *)
Definition tokenTransferValue (w : World) (i : Info)
  (tokenMetadata : TokenMetadata) : Completion string :=
  match tokenAmount i with
  | Some ta =>
      match ta_uiAmount ta with
      | Some u => Normal (toString u)
      | None => Throw "TypeError: Cannot read properties of null"
      end
  | None =>
      if ToBoolean (amount i) then
        Normal (toString (div (ToNumber (amount i))
                              (Math_pow10 w (decimals_or_9 tokenMetadata))))
      else Normal "0"
  end.

Definition parseTokenTransfer (w : World) (instruction : ParsedInstruction)
  : M (option TRANSFERS) :=
  if type_is instruction "transferChecked" || type_is instruction "transfer" then
    let! i := of_completion (info_of instruction) in
    let mintAddress := str_or (mint i) (token i) in
    let! tokenMetadata := lift (getTokenMetadata w mintAddress "SPL") in
    let! v := of_completion (tokenTransferValue w i tokenMetadata) in
    ret (Some {| tokenType := SPL;
                 tr_token := Resolved tokenMetadata;
                 tr_from := str_or (authority i) (source i);
                 tr_to := destination i;
                 value := Some v;
                 tokenId := None |})
  else ret None.

(** [tokenAmount?.decimals === 0 && tokenAmount?.uiAmount === 1] *)
Definition nft_shape (i : Info) : bool :=
  match tokenAmount i with
  | Some ta =>
      (ta_decimals ta =? 0)%N
      && match ta_uiAmount ta with
         | Some u => strict_eq u (of_Z 1)
         | None => false
         end
  | None => false
  end.

Definition parseNFTTransfer (w : World) (instruction : ParsedInstruction)
  : M (option TRANSFERS) :=
  if type_is instruction "transferChecked" || type_is instruction "transfer" then
    let! i := of_completion (info_of instruction) in
    if nft_shape i then
      let! tokenMetadata := lift (getTokenMetadata w (mint i) "NFT") in
      ret (Some {| tokenType := NFT;
                   tr_token := Resolved tokenMetadata;
                   tr_from := str_or (authority i) (source i);
                   tr_to := destination i;
                   value := None;
                   tokenId := mint i |})
    else ret None
  else ret None.

(** The literal [1e9]. *)
Definition LAMPORTS_PER_SOL : number := of_Z 1000000000.

Definition parseSystemInstruction (instruction : ParsedInstruction)
  : Completion (option TRANSFERS) :=
  if type_is instruction "transfer" || type_is instruction "transferWithSeed" then
    match info_of instruction with
    | Normal i =>
        Normal (Some {| tokenType := Native;
                        tr_token := SOL_9_decimals;
                        tr_from := str_or (source i) (from i);
                        tr_to := str_or (destination i) (to i);
                        value := Some (toString (div (ToNumber (lamports i))
                                                     LAMPORTS_PER_SOL));
                        tokenId := None |})
    | Throw e => Throw e
    end
  else Normal None.

Definition parseInstructionDetail (w : World) (instruction : INSTRUCTION_TYPE)
  (innerInstructions : list InstructionDetail) : InstructionDetail :=
  match instruction with
  | IsParsed instruction =>
      let programInfo := getProgramInfo (programId instruction) in
      let instructionName := type (parsed instruction) in
      let params :=
        match info (parsed instruction) with
        | Some i => ParamsInfo i
        | None => ParamsEmpty
        end in
      {| programName := name programInfo;
         instructionName :=
           value_or (get (instructions programInfo) (template instructionName))
                    (of_option instructionName);
         params := params;
         innerInstructions := innerInstructions |}
  | IsPartiallyDecoded instruction =>
      let programInfo := getProgramInfo (pd_programId instruction) in
      let decodedData := decodeInstructionData w (data instruction) in
      let params :=
        ParamsRaw decodedData
                  (map toBase58_or_toString (accounts instruction)) in
      let instructionName :=
        match str_or (own (instructions programInfo) "default")
                     (Some "Unknown Instruction") with
        | Some label => label
        | None => "Unknown Instruction"
        end in
      {| programName := name programInfo;
         instructionName :=
           value_or (get (instructions programInfo) instructionName)
                    (JString instructionName);
         params := params;
         innerInstructions := innerInstructions |}
  end.

(** The [programId] string of the loop: base58 for a [PublicKey]; otherwise
    the [program] name when the instruction has one, else the string
    itself. *)
Definition interactionKey (instruction : INSTRUCTION_TYPE) : string :=
  match instruction with
  | IsParsed i =>
      match programId i with
      | PublicKey b => b
      | PlainText _ => program i
      end
  | IsPartiallyDecoded i => toBase58_or_toString (pd_programId i)
  end.

(** The inner instructions recorded for position [idx], each parsed with
    no children of its own. *)
Definition innerDetails (w : World) (tx : Transaction) (idx : nat)
  : list InstructionDetail :=
  match tx_innerInstructions tx with
  | Some sets =>
      map (fun innerIx => parseInstructionDetail w innerIx [])
          (concat (map inner_instructions
                       (List.filter (fun inner => index inner =? idx)%nat sets)))
  | None => []
  end.

Definition push_transfer (t : TRANSFERS) (label : string) (r : ExtractedData)
  : ExtractedData :=
  {| programInteractions := programInteractions r;
     actions := actions r;
     otherInstructions := otherInstructions r;
     types := types r ++ [JString label];
     transfers := transfers r ++ [t] |}.

Definition push_if (o : option TRANSFERS) (label : string) (r : ExtractedData)
  : ExtractedData :=
  match o with
  | Some t => push_transfer t label r
  | None => r
  end.

Definition push_interaction (k : string) (r : ExtractedData) : ExtractedData :=
  {| programInteractions :=
       if includes k (programInteractions r) then programInteractions r
       else programInteractions r ++ [k];
     actions := actions r;
     otherInstructions := otherInstructions r;
     types := types r;
     transfers := transfers r |}.

Definition push_action (ty : JsValue) (d : InstructionDetail) (r : ExtractedData)
  : ExtractedData :=
  {| programInteractions := programInteractions r;
     actions := actions r ++ [d];
     otherInstructions := otherInstructions r;
     types := types r ++ [ty];
     transfers := transfers r |}.

Definition push_other (ty : JsValue) (d : InstructionDetail) (r : ExtractedData)
  : ExtractedData :=
  {| programInteractions := programInteractions r;
     actions := actions r;
     otherInstructions := otherInstructions r ++ [d];
     types := types r ++ [ty];
     transfers := transfers r |}.

(** The [switch (instruction.program)] of the loop body. *)
Definition extractTransfers (w : World) (instruction : ParsedInstruction)
  (result : ExtractedData) : M ExtractedData :=
  if String.eqb (program instruction) "system" then
    let! systemTransfer := of_completion (parseSystemInstruction instruction) in
    ret (push_if systemTransfer "Native Transfer" result)
  else if String.eqb (program instruction) "spl-token" then
    let! tokenTransfer := parseTokenTransfer w instruction in
    let result := push_if tokenTransfer "Token Transfer" result in
    let! nftTransfer := parseNFTTransfer w instruction in
    ret (push_if nftTransfer "NFT Transfer" result)
  else ret result.

(** One turn of the loop over [tx.transaction.message.instructions]. *)
Definition processInstruction (w : World) (tx : Transaction) (idx : nat)
  (instruction : INSTRUCTION_TYPE) (result : ExtractedData) : M ExtractedData :=
  let programId := interactionKey instruction in
  let result := push_interaction programId result in
  let innerInstructions := innerDetails w tx idx in
  let instructionDetail := parseInstructionDetail w instruction innerInstructions in
  match instruction with
  | IsParsed i =>
      let! result := extractTransfers w i result in
      ret (push_action (instructionName instructionDetail) instructionDetail result)
  | IsPartiallyDecoded _ =>
      let programInfo := getProgramInfo (PlainText programId) in
      ret (push_other (JString (name programInfo)) instructionDetail result)
  end.

Fixpoint processFrom (w : World) (tx : Transaction) (idx : nat)
  (rest : list INSTRUCTION_TYPE) (result : ExtractedData) : M ExtractedData :=
  match rest with
  | [] => ret result
  | instruction :: rest' =>
      let! result := processInstruction w tx idx instruction result in
      processFrom w tx (S idx) rest' result
  end.

Definition empty_result : ExtractedData :=
  {| programInteractions := []; actions := []; otherInstructions := [];
     types := []; transfers := [] |}.

Definition classifyAndExtractInstructions (w : World) (tx : Transaction)
  : M ExtractedData :=
  processFrom w tx 0 (tx_instructions tx) empty_result.

(** ** Predicates used in the statements *)

Definition is_parsed (instruction : INSTRUCTION_TYPE) : bool :=
  match instruction with
  | IsParsed _ => true
  | IsPartiallyDecoded _ => false
  end.

(** The list without repetitions, each element at the place of its first
    occurrence. *)
Fixpoint first_occurrences (l : list string) : list string :=
  match l with
  | [] => []
  | x :: rest =>
      x :: List.filter (fun y => negb (String.eqb x y)) (first_occurrences rest)
  end.

(** An instruction on which the transfer extractors read only what is
    there: a recognized transfer carries [info], and a token amount object
    carries a display amount. *)
Definition readable (instruction : INSTRUCTION_TYPE) : bool :=
  match instruction with
  | IsPartiallyDecoded _ => true
  | IsParsed i =>
      if String.eqb (program i) "system" then
        if type_is i "transfer" || type_is i "transferWithSeed"
        then match info (parsed i) with Some _ => true | None => false end
        else true
      else if String.eqb (program i) "spl-token" then
        if type_is i "transferChecked" || type_is i "transfer" then
          match info (parsed i) with
          | Some inf =>
              match tokenAmount inf with
              | Some ta =>
                  match ta_uiAmount ta with Some _ => true | None => false end
              | None => true
              end
          | None => false
          end
        else true
      else true
  end.

(** What one turn of the loop does to [programInteractions]. *)
Definition remember_key (acc : list string) (k : string) : list string :=
  if includes k acc then acc else acc ++ [k].


(** ** Concrete worlds, instructions and transactions *)

(** A world in which every lookup fails and the clock stands still; its
    runtime, as that of the next two worlds, computes every power of ten
    to the nearest Number. *)
Definition failing_world : World :=
  {| Date_now := fun _ => 0;
     getParsedAccountInfo := fun _ _ => None;
     getMetaplexAccount := fun _ _ => None;
     bs58_utf8 := fun _ => None;
     runtime_pow10 := pow10 |}.

Definition no_info : Info :=
  {| mint := None; token := None; authority := None; source := None;
     destination := None; from := None; to := None; lamports := None;
     amount := None; tokenAmount := None |}.

Definition opaque (programAddress : string) : INSTRUCTION_TYPE :=
  IsPartiallyDecoded
    {| pd_programId := PublicKey programAddress; accounts := []; data := "" |}.

(** A native transfer of 1,500,000,000 lamports. *)
Definition sol_transfer : ParsedInstruction :=
  {| program := "system";
     programId := PublicKey "11111111111111111111111111111111";
     parsed :=
       {| type := Some "transfer";
          info := Some
            {| mint := None; token := None; authority := None;
               source := Some "Alice"; destination := Some "Bob";
               from := None; to := None;
               lamports := Some (Num (of_Z 1500000000));
               amount := None; tokenAmount := None |} |} |}.

(** A checked transfer of one indivisible token of mint ["MintM"]. *)
Definition nft_like_transfer : ParsedInstruction :=
  {| program := "spl-token";
     programId := PublicKey "TokenkegQfeZyiNwAJbNbGKPFXCWuBvf9Ss623VQ5DA";
     parsed :=
       {| type := Some "transferChecked";
          info := Some
            {| mint := Some "MintM"; token := None;
               authority := Some "Alice";
               source := Some "AliceAccount"; destination := Some "BobAccount";
               from := None; to := None; lamports := None;
               amount := None;
               tokenAmount :=
                 Some {| ta_decimals := 0; ta_uiAmount := Some (of_Z 1) |} |} |} |}.

Definition mixed_transaction : Transaction :=
  {| tx_instructions :=
       [ IsParsed sol_transfer;
         opaque "JUP4Fb2cqiRUcaTHdrPC8h2gNsA2ETXiPDD33WcGuJB";
         IsParsed nft_like_transfer ];
     tx_innerInstructions :=
       Some [ {| index := 1; inner_instructions := [ IsParsed sol_transfer ] |} ] |}.

Definition ABAC_transaction : Transaction :=
  {| tx_instructions := [ opaque "A"; opaque "B"; opaque "A"; opaque "C" ];
     tx_innerInstructions := None |}.

(** The result of a run, [empty_result] standing for a thrown exception. *)
Definition result_of (c : Completion ExtractedData * State) : ExtractedData :=
  match fst c with
  | Normal r => r
  | Throw _ => empty_result
  end.

(** Whether the cache holds an entry for the key that the freshness test
    accepts at the present clock reading. *)
Definition cached_fresh (w : World) (mintAddress : option string)
  (tokenType : string) (s : State) : bool :=
  match metadataCache s !! cacheKey mintAddress tokenType with
  | Some c => within_ttl (Date_now w (tick s)) c
  | None => false
  end.

(** The answer of the mint lookup that a fetch started in [s] receives. *)
Definition mint_answer (w : World) (mintAddress : option string) (s : State)
  : option MintInfo :=
  match mintAddress with
  | Some a => getParsedAccountInfo w (S (tick s)) a
  | None => None
  end.

(** A world in which every mint resolves with the given decimals and the
    clock advances one millisecond per interaction. *)
Definition resolving_world (d : N) : World :=
  {| Date_now := fun n => Z.of_nat n;
     getParsedAccountInfo := fun _ _ =>
       Some {| mint_decimals := Some d; mint_supply := Some "1000";
               mint_isInitialized := Some true |};
     getMetaplexAccount := fun _ _ => None;
     bs58_utf8 := fun _ => None;
     runtime_pow10 := pow10 |}.

(** As [resolving_world], with a clock that jumps two hours at each
    interaction. *)
Definition slow_world (d : N) : World :=
  {| Date_now := fun n => 7200000 * Z.of_nat n;
     getParsedAccountInfo := getParsedAccountInfo (resolving_world d);
     getMetaplexAccount := fun _ _ => None;
     bs58_utf8 := fun _ => None;
     runtime_pow10 := pow10 |}.

(** A plain token transfer as the RPC delivers it: a raw amount of 250 as a
    digit string, no mint and no token amount object. *)
Definition raw_transfer_250 : ParsedInstruction :=
  {| program := "spl-token";
     programId := PublicKey "TokenkegQfeZyiNwAJbNbGKPFXCWuBvf9Ss623VQ5DA";
     parsed :=
       {| type := Some "transfer";
          info := Some
            {| mint := None; token := None; authority := Some "Alice";
               source := Some "AliceAccount"; destination := Some "BobAccount";
               from := None; to := None; lamports := None;
               amount := Some (Digits 250); tokenAmount := None |} |} |}.

(** The same transfer with the mint named, so that its metadata can
    resolve. *)
Definition raw_transfer_250_of_mint : ParsedInstruction :=
  {| program := "spl-token";
     programId := PublicKey "TokenkegQfeZyiNwAJbNbGKPFXCWuBvf9Ss623VQ5DA";
     parsed :=
       {| type := Some "transfer";
          info := Some
            {| mint := Some "MintM"; token := None; authority := Some "Alice";
               source := Some "AliceAccount"; destination := Some "BobAccount";
               from := None; to := None; lamports := None;
               amount := Some (Digits 250); tokenAmount := None |} |} |}.

Definition info_or_none (p : ParsedInstruction) : Info :=
  match info (parsed p) with
  | Some i => i
  | None => no_info
  end.

(** The token transfer record of [parseTokenTransfer]. *)
Definition spl_transfer (i : Info) (tokenMetadata : TokenMetadata) (v : string)
  : TRANSFERS :=
  {| tokenType := SPL;
     tr_token := Resolved tokenMetadata;
     tr_from := str_or (authority i) (source i);
     tr_to := destination i;
     value := Some v;
     tokenId := None |}.

(** The NFT transfer record of [parseNFTTransfer]. *)
Definition nft_transfer (i : Info) (tokenMetadata : TokenMetadata) : TRANSFERS :=
  {| tokenType := NFT;
     tr_token := Resolved tokenMetadata;
     tr_from := str_or (authority i) (source i);
     tr_to := destination i;
     value := None;
     tokenId := mint i |}.

(** The native transfer record of [parseSystemInstruction]. *)
Definition native_transfer (i : Info) : TRANSFERS :=
  {| tokenType := Native;
     tr_token := SOL_9_decimals;
     tr_from := str_or (source i) (from i);
     tr_to := str_or (destination i) (to i);
     value := Some (toString (div (ToNumber (lamports i)) (of_Z (10 ^ 9))));
     tokenId := None |}.

(** The label as the specification words it: the exact tag match in the
    descriptor's label table, else the descriptor's default label, else the
    raw tag verbatim, else "Unknown Instruction". *)
Definition label_by_spec (descriptor : ProgramInfo) (rawTag : option string)
  : string :=
  match own (instructions descriptor) (template rawTag) with
  | Some label => label
  | None =>
      match own (instructions descriptor) "default" with
      | Some label => label
      | None =>
          match rawTag with
          | Some tag => tag
          | None => "Unknown Instruction"
          end
      end
  end.

(** A label table on which the lookups of [parseInstructionDetail] meet no
    accident: no empty label, no entry named "undefined", and the label
    used for an opaque instruction is not itself the name of an entry or of
    an inherited member. *)
Definition plain_table (p : ProgramInfo) : bool :=
  let table := instructions p in
  forallb (fun kv => negb (String.eqb (snd kv) "")) table
  && match own table "undefined" with Some _ => false | None => true end
  && match own table "default" with
     | Some d =>
         match own table d with Some _ => false | None => true end
         && negb (includes d object_prototype_members)
     | None =>
         match own table "Unknown Instruction" with
         | Some _ => false
         | None => true
         end
     end.

(** A parsed instruction of the vote program, which the registry does not
    list. *)
Definition vote_instruction : ParsedInstruction :=
  {| program := "vote";
     programId := PublicKey "Vote111111111111111111111111111111111111111";
     parsed := {| type := Some "vote"; info := Some no_info |} |}.

(** A parsed memo: its [parsed] is a bare string, so it has neither tag
    nor [info]. *)
Definition memo_instruction : ParsedInstruction :=
  {| program := "spl-memo";
     programId := PublicKey "MemoSq4gqABAXKb96qnH8TysNcWxMyWCqXgDLGmfcHr";
     parsed := {| type := None; info := None |} |}.

(** ** The earlier variant of the instruction processor

    The repository keeps a second, older module that exports a function of
    the same name. It has no registry and no instruction details; it is
    embedded here to record where the two differ. [parseNFTTransfer] and
    [parseSystemInstruction] are the same text in both. *)

Module Legacy.

Definition TOKEN_PROGRAM : string := "TokenkegQfeZyiNwAJbNbGKPFXCWuBvf9Ss623VQ5DA".
Definition ASSOCIATED_TOKEN : string := "ATokenGPvbdGVxr1b2hvZbsiqW5xWH25efTNsLJA8knL".
Definition SYSTEM_PROGRAM : string := "11111111111111111111111111111111".
Definition METADATA_PROGRAM : string := "metaqbxxUerdq28cj1RbAWkYQm3ybzjb6a8bt518x1s".

(** [(tokenAmount?.uiAmount || amount / Math.pow(10, decimals || 9))
    .toString()] *)
Definition tokenTransferValue (w : World) (i : Info)
  (tokenMetadata : TokenMetadata) : string :=
  let uiAmount :=
    match tokenAmount i with
    | Some ta => ta_uiAmount ta
    | None => None
    end in
  match uiAmount with
  | Some u =>
      if truthy u then toString u
      else toString (div (ToNumber (amount i))
                         (Math_pow10 w (decimals_or_9 tokenMetadata)))
  | None =>
      toString (div (ToNumber (amount i))
                    (Math_pow10 w (decimals_or_9 tokenMetadata)))
  end.

Definition parseTokenTransfer (w : World) (instruction : ParsedInstruction)
  : M (option TRANSFERS) :=
  if type_is instruction "transferChecked" || type_is instruction "transfer" then
    let! i := of_completion (info_of instruction) in
    let! tokenMetadata :=
      lift (getTokenMetadata w (str_or (mint i) (token i)) "SPL") in
    ret (Some {| tokenType := SPL;
                 tr_token := Resolved tokenMetadata;
                 tr_from := str_or (authority i) (source i);
                 tr_to := destination i;
                 value := Some (tokenTransferValue w i tokenMetadata);
                 tokenId := None |})
  else ret None.

Definition getInstructionType (instruction : INSTRUCTION_TYPE)
  (programId : string) : string :=
  match instruction with
  | IsParsed i => program i ++ ":" ++ template (type (parsed i))
  | IsPartiallyDecoded _ =>
      if String.eqb programId TOKEN_PROGRAM then "spl-token"
      else if String.eqb programId ASSOCIATED_TOKEN then "associated-token"
      else if String.eqb programId METADATA_PROGRAM then "metadata"
      else "unknown"
  end.

(** The object pushed to [actions]. *)
Record Action := {
  action_program : string;
  action_type : option string;
  action_info : option Info
}.

(** The object pushed to [otherInstructions]. *)
Record Other := {
  other_programId : string;
  other_accounts : list string;
  other_data : string
}.

Record ExtractedData := {
  programInteractions : list string;
  actions : list Action;
  otherInstructions : list Other;
  types : list string;
  transfers : list TRANSFERS
}.

Definition push_if (o : option TRANSFERS) (label : string) (r : ExtractedData)
  : ExtractedData :=
  match o with
  | Some t =>
      {| programInteractions := programInteractions r;
         actions := actions r;
         otherInstructions := otherInstructions r;
         types := types r ++ [label];
         transfers := transfers r ++ [t] |}
  | None => r
  end.

(** [instruction.programId.toString()]: both shapes have the property. *)
Definition interactionKey (instruction : INSTRUCTION_TYPE) : string :=
  match instruction with
  | IsParsed i => toBase58_or_toString (programId i)
  | IsPartiallyDecoded i => toBase58_or_toString (pd_programId i)
  end.

(** One turn of the loop. Only the [default] case of the [switch]
    pushes to [actions]. *)
Definition processInstruction (w : World) (instruction : INSTRUCTION_TYPE)
  (result : ExtractedData) : M ExtractedData :=
  let programId := interactionKey instruction in
  let result :=
    {| programInteractions :=
         remember_key (programInteractions result) programId;
       actions := actions result;
       otherInstructions := otherInstructions result;
       types := types result;
       transfers := transfers result |} in
  match instruction with
  | IsParsed i =>
      if String.eqb (program i) "system" then
        let! systemTransfer := of_completion (parseSystemInstruction i) in
        ret (push_if systemTransfer "Native Transfer" result)
      else if String.eqb (program i) "spl-token" then
        let! tokenTransfer := parseTokenTransfer w i in
        let result := push_if tokenTransfer "Token Transfer" result in
        let! nftTransfer := parseNFTTransfer w i in
        ret (push_if nftTransfer "NFT Transfer" result)
      else
        let type_ := getInstructionType instruction programId in
        ret {| programInteractions := programInteractions result;
               actions := actions result
                          ++ [ {| action_program := program i;
                                  action_type := type (parsed i);
                                  action_info := info (parsed i) |} ];
               otherInstructions := otherInstructions result;
               types := types result ++ [type_];
               transfers := transfers result |}
  | IsPartiallyDecoded i =>
      ret {| programInteractions := programInteractions result;
             actions := actions result;
             otherInstructions := otherInstructions result
               ++ [ {| other_programId := programId;
                       other_accounts := map toBase58_or_toString (accounts i);
                       other_data := data i |} ];
             types := types result;
             transfers := transfers result |}
  end.

Fixpoint processAll (w : World) (rest : list INSTRUCTION_TYPE)
  (result : ExtractedData) : M ExtractedData :=
  match rest with
  | [] => ret result
  | instruction :: rest' =>
      let! result := processInstruction w instruction result in
      processAll w rest' result
  end.

Definition classifyAndExtractInstructions (w : World) (tx : Transaction)
  : M ExtractedData :=
  processAll w (tx_instructions tx)
    {| programInteractions := []; actions := []; otherInstructions := [];
       types := []; transfers := [] |}.

End Legacy.

(** ** Further predicates on instructions *)

(** The detail records of a run of instructions, the first one at position
    [idx]: each with the inner instructions recorded for its position. *)
Fixpoint detailsFrom (w : World) (tx : Transaction) (idx : nat)
  (rest : list INSTRUCTION_TYPE) : list InstructionDetail :=
  match rest with
  | [] => []
  | instruction :: rest' =>
      parseInstructionDetail w instruction (innerDetails w tx idx)
      :: detailsFrom w tx (S idx) rest'
  end.

Definition is_native_transfer (i : ParsedInstruction) : bool :=
  String.eqb (program i) "system"
  && (type_is i "transfer" || type_is i "transferWithSeed").

Definition is_token_transfer (i : ParsedInstruction) : bool :=
  String.eqb (program i) "spl-token"
  && (type_is i "transferChecked" || type_is i "transfer").

(** The token types of the transfers one instruction gives rise to. *)
Definition transfer_kinds (instruction : INSTRUCTION_TYPE) : list TokenType :=
  match instruction with
  | IsPartiallyDecoded _ => []
  | IsParsed i =>
      if is_native_transfer i then [Native]
      else if is_token_transfer i then
        if nft_shape (info_or_none i) then [SPL; NFT] else [SPL]
      else []
  end.

Definition touches_metadata (instruction : INSTRUCTION_TYPE) : bool :=
  match instruction with
  | IsPartiallyDecoded _ => false
  | IsParsed i => is_token_transfer i
  end.

(** The descriptor [getProgramInfo] makes up for an address the registry
    does not list. *)
Definition unknown_program (programAddress : string) : ProgramInfo :=
  {| id := None;
     name := "Unknown Program (" ++ programAddress ++ ")";
     instructions := [ ("default", "Unknown Instruction") ] |}.

(** Every entry has an [id] and no two entries share one. *)
Fixpoint ids_distinct (l : list ProgramInfo) : bool :=
  match l with
  | [] => true
  | p :: rest =>
      match id p with
      | Some i =>
          negb (existsb (fun q => match id q with
                                  | Some j => String.eqb j i
                                  | None => false
                                  end) rest)
          && ids_distinct rest
      | None => false
      end
  end.

(** No character of the string is a hyphen. *)
Fixpoint hyphen_free (s : string) : bool :=
  match s with
  | EmptyString => true
  | String c rest => negb (Ascii.eqb c "-") && hyphen_free rest
  end.

(** Every entry of the cache is a record of a successful fetch, filed
    under the key of its own address and kind. *)
Definition cache_sound (s : State) : Prop :=
  forall k m,
    metadataCache s !! k = Some m ->
    md_error m = None
    /\ (exists ts, md_timestamp m = Some ts)
    /\ k = cacheKey (md_address m) (md_type m).

(** In the earlier variant, the instructions that reach [actions] or
    [otherInstructions]. *)
Definition legacy_recorded (instruction : INSTRUCTION_TYPE) : bool :=
  match instruction with
  | IsPartiallyDecoded _ => true
  | IsParsed i =>
      negb (String.eqb (program i) "system" || String.eqb (program i) "spl-token")
  end.

(** ** route.ts: the parts of [analyzeTransaction] that compute *)

(** More Number operations: [-], [Math.abs], [<]. *)
Definition number_sub (x y : number) : number := SFsub prec emax x y.
Definition Math_abs (x : number) : number := SFabs x.
Definition number_lt (x y : number) : bool := SFltb x y.

(** An array element that may be out of range. *)
Definition element (l : list number) (i : nat) : number :=
  match nth_error l i with
  | Some x => x
  | None => NaN
  end.

(** An entry of [analysis.securityInfo]. *)
Record SecurityInfo := {
  si_type : string;
  si_message : string
}.

(** The fields of [analysis] that the merging and scoring code reads and
    writes. *)
Record Analysis := {
  actionTypes : list JsValue;
  an_transfers : list TRANSFERS;
  an_actions : list InstructionDetail;
  interactions : list string;
  securityInfo : list SecurityInfo;
  an_otherInstructions : list InstructionDetail
}.

(** The record pushed by the balance check for account [key]. *)
Definition balance_transfer (key : string) (balanceDiff : number) : TRANSFERS :=
  {| tokenType := Native;
     tr_token := SOL_9_decimals;
     tr_from := Some (if number_lt balanceDiff (of_Z 0) then key else "");
     tr_to := Some (if number_lt (of_Z 0) balanceDiff then key else "");
     value := Some (toString (Math_abs (div balanceDiff LAMPORTS_PER_SOL)));
     tokenId := None |}.

(** The loop of the SOL transfer check, from position [i] on. *)
Fixpoint balanceCheckFrom (i : nat) (accountKeys : list string)
  (preBalances postBalances : list number) : list TRANSFERS :=
  match accountKeys with
  | [] => []
  | key :: rest =>
      let preBalance := element preBalances i in
      let postBalance := element postBalances i in
      let balanceDiff := number_sub postBalance preBalance in
      (if number_lt (of_Z 0) (Math_abs balanceDiff) && negb (i =? 0)%nat
       then [balance_transfer key balanceDiff]
       else [])
      ++ balanceCheckFrom (S i) rest preBalances postBalances
  end.

(** The SOL transfer check; the balances are [None] when [tx.meta] or the
    array is missing. Each transfer found is pushed together with the
    action type 'Native Transfer'. *)
Definition balanceCheck (accountKeys : list string)
  (preBalances postBalances : option (list number)) (analysis : Analysis)
  : Analysis :=
  match preBalances, postBalances with
  | Some pre, Some post =>
      let found := balanceCheckFrom 0 accountKeys pre post in
      {| actionTypes :=
           actionTypes analysis ++ map (fun _ => JString "Native Transfer") found;
         an_transfers := an_transfers analysis ++ found;
         an_actions := an_actions analysis;
         interactions := interactions analysis;
         securityInfo := securityInfo analysis;
         an_otherInstructions := an_otherInstructions analysis |}
  | _, _ => analysis
  end.

(** Adding the extracted instructions to the analysis. *)
Definition addExtracted (analysis : Analysis) (extractedInstructions : ExtractedData)
  : Analysis :=
  {| actionTypes := actionTypes analysis ++ types extractedInstructions;
     an_transfers := an_transfers analysis ++ transfers extractedInstructions;
     an_actions := an_actions analysis ++ actions extractedInstructions;
     interactions :=
       interactions analysis ++ programInteractions extractedInstructions;
     securityInfo := securityInfo analysis;
     an_otherInstructions :=
       an_otherInstructions analysis ++ otherInstructions extractedInstructions |}.

Definition complexity_points (analysis : Analysis) : nat :=
  (0 + length (an_transfers analysis) * 2
   + length (interactions analysis) * 3
   + length (securityInfo analysis) * 2
   + (if (1 <? length (actionTypes analysis))%nat then 5 else 0))%nat.

Definition calculateComplexityScore (analysis : Analysis) : string :=
  let score := complexity_points analysis in
  if (score <=? 5)%nat then "Simple"
  else if (score <=? 15)%nat then "Moderate"
  else if (score <=? 30)%nat then "Complex"
  else "Very Complex".

(** [array.includes(text)] on action types. *)
Definition includes_text (text : string) (l : list JsValue) : bool :=
  existsb (fun v => match v with
                    | JString s => String.eqb s text
                    | _ => false
                    end) l.

Definition risk_factors (analysis : Analysis) : nat :=
  ((if (3 <? length (interactions analysis))%nat then 1 else 0)
   + (if includes_text "Swap" (actionTypes analysis) then 1 else 0)
   + (if existsb (fun e => String.eqb (si_type e) "Warning") (securityInfo analysis)
      then 2 else 0)
   + (if (5 <? length (an_transfers analysis))%nat then 1 else 0)
   + (if (1 <? length (actionTypes analysis))%nat then 1 else 0))%nat.

Definition calculateRiskLevel (analysis : Analysis) : string :=
  let riskFactors := risk_factors analysis in
  if (riskFactors =? 0)%nat then "Low"
  else if (riskFactors <=? 2)%nat then "Medium"
  else "High".

(** The order of the complexity categories and of the risk levels. *)
Definition complexity_rank (category : string) : nat :=
  if String.eqb category "Simple" then 0
  else if String.eqb category "Moderate" then 1
  else if String.eqb category "Complex" then 2
  else 3.

Definition risk_rank (level : string) : nat :=
  if String.eqb level "Low" then 0
  else if String.eqb level "Medium" then 1
  else 2.

Definition empty_analysis : Analysis :=
  {| actionTypes := []; an_transfers := []; an_actions := [];
     interactions := []; securityInfo := []; an_otherInstructions := [] |}.

(** ** chainManager.ts *)

Module ChainManager.

Record NativeCurrency := {
  currency_name : string;
  currency_symbol : string;
  currency_decimals : N
}.

Record Network := {
  net_name : string;
  cluster : string;
  nativeCurrency : NativeCurrency;
  rpc : list string
}.

(** Building a connection to an endpoint and asking it for the slot:
    [None] when that succeeds, the error's message when it throws. The
    answer may change from one attempt to the next. *)
Record Endpoints := {
  attempt : nat -> string -> option string
}.

(** The singleton: its [networks], its [connectionCache] (a connection is
    known by its endpoint), and a log of the endpoints tried. *)
Record Manager := {
  networks : list Network;
  connectionCache : gmap string string;
  tried : list string
}.

Definition getNetwork (m : Manager) (name : string) : option Network :=
  find (fun network => String.eqb (cluster network) name) (networks m).

(** [errors.map(e => e.message).join(', ')] *)
Definition join_messages (errors : list string) : string :=
  String.concat ", " errors.

(** The loop over [network.rpc]. *)
Fixpoint tryEndpoints (e : Endpoints) (name : string) (rpcs : list string)
  (errors : list string) (m : Manager) : Completion string * Manager :=
  match rpcs with
  | [] =>
      (Throw ("All RPCs failed for network " ++ name ++ ". Errors: "
              ++ join_messages errors), m)
  | endpoint :: rest =>
      let m' := {| networks := networks m;
                   connectionCache := connectionCache m;
                   tried := tried m ++ [endpoint] |} in
      match attempt e (length (tried m)) endpoint with
      | None =>
          (Normal endpoint,
           {| networks := networks m;
              connectionCache := <[name := endpoint]> (connectionCache m);
              tried := tried m ++ [endpoint] |})
      | Some message => tryEndpoints e name rest (errors ++ [message]) m'
      end
  end.

Definition getConnection (e : Endpoints) (name : string) (m : Manager)
  : Completion string * Manager :=
  match connectionCache m !! name with
  | Some cachedConnection => (Normal cachedConnection, m)
  | None =>
      match getNetwork m name with
      | None => (Throw ("Network " ++ name ++ " not found"), m)
      | Some network =>
          match rpc network with
          | [] => (Throw ("No RPC endpoints found for network " ++ name), m)
          | _ => tryEndpoints e name (rpc network) [] m
          end
      end
  end.

Definition clearConnectionCache (m : Manager) : Manager :=
  {| networks := networks m; connectionCache := ∅; tried := tried m |}.

End ChainManager.

(** A manager with one network of two endpoints, and endpoints of which
    only the second answers. *)
Definition two_endpoint_manager : ChainManager.Manager :=
  {| ChainManager.networks :=
       [ {| ChainManager.net_name := "Solana Devnet";
            ChainManager.cluster := "devnet";
            ChainManager.nativeCurrency :=
              {| ChainManager.currency_name := "Solana";
                 ChainManager.currency_symbol := "SOL";
                 ChainManager.currency_decimals := 9 |};
            ChainManager.rpc := [ "https://first.example"; "https://second.example" ] |} ];
     ChainManager.connectionCache := ∅;
     ChainManager.tried := [] |}.

Definition second_answers : ChainManager.Endpoints :=
  {| ChainManager.attempt := fun _ endpoint =>
       if String.eqb endpoint "https://second.example" then None
       else Some "fetch failed" |}.

Definition none_answers : ChainManager.Endpoints :=
  {| ChainManager.attempt := fun _ _ => Some "fetch failed" |}.

(** Whether a registry entry has the given [id]. *)
Definition has_id (programId : string) (p : ProgramInfo) : bool :=
  match id p with
  | Some i => String.eqb i programId
  | None => false
  end.

(** A partially decoded instruction of the given program. *)
Definition opaque_of (programAddress : string) (accts : list Address)
  (payload : string) : INSTRUCTION_TYPE :=
  IsPartiallyDecoded
    {| pd_programId := PublicKey programAddress;
       accounts := accts; data := payload |}.

Definition is_Native (k : TokenType) : bool :=
  match k with
  | Native => true
  | _ => false
  end.

Definition native_instruction (instruction : INSTRUCTION_TYPE) : bool :=
  match instruction with
  | IsParsed i => is_native_transfer i
  | IsPartiallyDecoded _ => false
  end.

(** The number of Native records among transfers. *)
Definition native_count (l : list TRANSFERS) : nat :=
  length (List.filter is_Native (map tokenType l)).

Definition has_warning (analysis : Analysis) : bool :=
  existsb (fun e => String.eqb (si_type e) "Warning") (securityInfo analysis).

(** The shape of a transfer record by kind: a Native or SPL transfer has a
    value and no token id, an NFT transfer has no value; only the Native
    one carries the fixed descriptor. *)
Definition well_shaped (t : TRANSFERS) : bool :=
  match tokenType t, tr_token t, value t, tokenId t with
  | Native, SOL_9_decimals, Some _, None => true
  | SPL, Resolved _, Some _, None => true
  | NFT, Resolved _, None, _ => true
  | _, _, _, _ => false
  end.

(** A token transfer whose token amount object has a null display
    amount. *)
Definition transfer_without_display_amount : ParsedInstruction :=
  {| program := "spl-token";
     programId := PublicKey "TokenkegQfeZyiNwAJbNbGKPFXCWuBvf9Ss623VQ5DA";
     parsed :=
       {| type := Some "transferChecked";
          info := Some
            {| mint := Some "MintM"; token := None; authority := Some "Alice";
               source := Some "AliceAccount"; destination := Some "BobAccount";
               from := None; to := None; lamports := None; amount := None;
               tokenAmount :=
                 Some {| ta_decimals := 24; ta_uiAmount := None |} |} |} |}.

(** A world whose runtime returns for [Math.pow(10, 26)] the Number just
    below [10^26], 9.999999999999999e+25, and resolves every mint with
    26 decimals. *)
Definition imprecise_power_world : World :=
  {| Date_now := fun n => Z.of_nat n;
     getParsedAccountInfo := getParsedAccountInfo (resolving_world 26);
     getMetaplexAccount := fun _ _ => None;
     bs58_utf8 := fun _ => None;
     runtime_pow10 := fun d =>
       if (d =? 26)%N then of_decimal 9999999999999999 10 else pow10 d |}.

(** A plain transfer of a raw amount of [10^26]. *)
Definition raw_transfer_1e26 : ParsedInstruction :=
  {| program := "spl-token";
     programId := PublicKey "TokenkegQfeZyiNwAJbNbGKPFXCWuBvf9Ss623VQ5DA";
     parsed :=
       {| type := Some "transfer";
          info := Some
            {| mint := Some "MintM"; token := None; authority := Some "Alice";
               source := Some "AliceAccount"; destination := Some "BobAccount";
               from := None; to := None; lamports := None;
               amount := Some (Num (of_Z (10 ^ 26))); tokenAmount := None |} |} |}.

(** The inner instructions recorded for position [idx], read off the
    transaction: those of every entry whose [index] is [idx], in order. *)
Definition inner_of_position (tx : Transaction) (idx : nat)
  : list INSTRUCTION_TYPE :=
  flat_map (fun inner => if (index inner =? idx)%nat
                         then inner_instructions inner else [])
           (match tx_innerInstructions tx with
            | Some sets => sets
            | None => []
            end).


(** ** Proofs: the monad *)

Local Open Scope list_scope.

Lemma bind_normal {A B} (c : M A) (k : A -> M B) s b s' :
  bind c k s = (Normal b, s') ->
  exists a s1, c s = (Normal a, s1) /\ k a s1 = (Normal b, s').
Proof.
  unfold bind. destruct (c s) as [[a | e] s1]; intros H.
  - exists a, s1. split; [reflexivity | exact H].
  - discriminate H.
Qed.

Lemma bind_step {A B} (c : M A) (k : A -> M B) s a s1 :
  c s = (Normal a, s1) -> bind c k s = k a s1.
Proof. intros H. unfold bind. rewrite H. reflexivity. Qed.

Lemma lift_normal {A} (c : State -> A * State) s :
  lift c s = (Normal (fst (c s)), snd (c s)).
Proof. unfold lift. destruct (c s). reflexivity. Qed.

(** ** Proofs: Number-to-string on known values *)

(** The printing agrees with what JavaScript prints: positional notation
    from [1e-6] up to, not including, [1e21]; exponent notation outside;
    the shortest digit string that reads back as the same Number. *)
Lemma toString_examples :
  toString (div (of_Z 1) (of_Z 3)) = "0.3333333333333333"%string
  /\ toString (SFadd prec emax (of_decimal 1 (-1)) (of_decimal 2 (-1)))
     = "0.30000000000000004"%string
  /\ toString (of_decimal 1 (-6)) = "0.000001"%string
  /\ toString (of_decimal 1 (-7)) = "1e-7"%string
  /\ toString (of_Z 123456789012345680000) = "123456789012345680000"%string
  /\ toString (of_decimal 1 21) = "1e+21"%string
  /\ toString (of_decimal 5 (-324)) = "5e-324"%string
  /\ toString (div (of_Z 9007199254740991) (of_Z 1000000000))
     = "9007199.25474099"%string
  /\ toString (div (of_Z (-5)) (of_Z 2)) = "-2.5"%string
  /\ toString (div (of_Z 0) (of_Z 0)) = "NaN"%string.
Proof. vm_compute. repeat split. Qed.

(** ** Proofs: the partition of the instructions and the interactions *)

Lemma push_if_frame o label r :
  programInteractions (push_if o label r) = programInteractions r
  /\ actions (push_if o label r) = actions r
  /\ otherInstructions (push_if o label r) = otherInstructions r.
Proof. destruct o; simpl; auto. Qed.

Lemma extractTransfers_frame w i r s r' s' :
  extractTransfers w i r s = (Normal r', s') ->
  programInteractions r' = programInteractions r
  /\ actions r' = actions r
  /\ otherInstructions r' = otherInstructions r.
Proof.
  unfold extractTransfers.
  destruct (String.eqb (program i) "system").
  - intros H. apply bind_normal in H as (t & s1 & _ & H).
    inversion H; subst. apply push_if_frame.
  - destruct (String.eqb (program i) "spl-token").
    + intros H. apply bind_normal in H as (t & s1 & _ & H).
      apply bind_normal in H as (n & s2 & _ & H).
      inversion H; subst.
      destruct (push_if_frame n "NFT Transfer" (push_if t "Token Transfer" r))
        as (E1 & E2 & E3).
      destruct (push_if_frame t "Token Transfer" r) as (F1 & F2 & F3).
      rewrite E1, E2, E3. auto.
    + intros H. inversion H; subst. auto.
Qed.

Lemma processInstruction_effect w tx idx instruction r s r' s' :
  processInstruction w tx idx instruction r s = (Normal r', s') ->
  programInteractions r'
  = remember_key (programInteractions r) (interactionKey instruction)
  /\ length (actions r')
     = (length (actions r) + if is_parsed instruction then 1 else 0)%nat
  /\ length (otherInstructions r')
     = (length (otherInstructions r) + if is_parsed instruction then 0 else 1)%nat.
Proof.
  unfold processInstruction. destruct instruction as [i | i]; simpl.
  - intros H. apply bind_normal in H as (r1 & s1 & H1 & H).
    apply extractTransfers_frame in H1 as (E1 & E2 & E3).
    inversion H; subst; simpl. rewrite E1, E2, E3; simpl.
    rewrite length_app; simpl. repeat split; lia.
  - intros H. inversion H; subst; simpl.
    rewrite length_app; simpl. repeat split; lia.
Qed.

Lemma processFrom_effect w tx rest : forall idx r s r' s',
  processFrom w tx idx rest r s = (Normal r', s') ->
  programInteractions r'
  = fold_left remember_key (map interactionKey rest) (programInteractions r)
  /\ length (actions r')
     = (length (actions r) + length (List.filter is_parsed rest))%nat
  /\ length (otherInstructions r')
     = (length (otherInstructions r)
        + length (List.filter (fun i => negb (is_parsed i)) rest))%nat.
Proof.
  induction rest as [| instruction rest IH]; intros idx r s r' s' H.
  - inversion H; subst; simpl. repeat split; lia.
  - simpl in H. apply bind_normal in H as (r1 & s1 & H1 & H).
    apply processInstruction_effect in H1 as (E1 & E2 & E3).
    apply IH in H as (F1 & F2 & F3).
    simpl. rewrite F1, F2, F3, E1, E2, E3.
    destruct (is_parsed instruction); simpl; repeat split; lia.
Qed.

Lemma partition_length {A} (p : A -> bool) (l : list A) :
  (length (List.filter p l) + length (List.filter (fun x => negb (p x)) l))%nat
  = length l.
Proof.
  induction l as [| x l IH]; simpl; [reflexivity |].
  destruct (p x); simpl; lia.
Qed.

(** C1. Whenever [classifyAndExtractInstructions] returns, every top-level
    instruction has gone to exactly one of [actions] and
    [otherInstructions]: the parsed ones to [actions], the partially
    decoded ones to [otherInstructions], so the two lengths add up to the
    number of top-level instructions. *)
Theorem actions_and_others_partition w tx s r s' :
  classifyAndExtractInstructions w tx s = (Normal r, s') ->
  length (actions r) = length (List.filter is_parsed (tx_instructions tx))
  /\ length (otherInstructions r)
     = length (List.filter (fun i => negb (is_parsed i)) (tx_instructions tx))
  /\ (length (actions r) + length (otherInstructions r))%nat
     = length (tx_instructions tx).
Proof.
  intros H. unfold classifyAndExtractInstructions in H.
  apply processFrom_effect in H as (_ & Ha & Ho). simpl in Ha, Ho.
  repeat split; [exact Ha | exact Ho |].
  rewrite Ha, Ho. apply partition_length.
Qed.

Lemma actions_and_others_partition_witness :
  let r := result_of (classifyAndExtractInstructions failing_world mixed_transaction initial) in
  length (actions r) = 2%nat
  /\ length (otherInstructions r) = 1%nat
  /\ (length (actions r) + length (otherInstructions r))%nat = 3%nat.
Proof.
  intros r.
  apply (actions_and_others_partition failing_world mixed_transaction initial r
           (snd (classifyAndExtractInstructions failing_world mixed_transaction initial))).
  vm_compute. reflexivity.
Defined.

(** ** Proofs: totality on readable transactions *)

Lemma getTokenMetadata_lift w a t s :
  exists m s1, lift (getTokenMetadata w a t) s = (Normal m, s1).
Proof. rewrite lift_normal. eauto. Qed.

Lemma extractTransfers_returns w i r s :
  readable (IsParsed i) = true ->
  exists r' s', extractTransfers w i r s = (Normal r', s').
Proof.
  unfold readable, extractTransfers.
  destruct (String.eqb (program i) "system").
  - unfold parseSystemInstruction, info_of.
    destruct (type_is i "transfer" || type_is i "transferWithSeed").
    + destruct (info (parsed i)); [| discriminate]. intros _.
      unfold bind, of_completion, ret. eauto.
    + intros _. unfold bind, of_completion, ret. eauto.
  - destruct (String.eqb (program i) "spl-token"); [| unfold ret; eauto].
    unfold parseTokenTransfer, parseNFTTransfer, info_of, tokenTransferValue, nft_shape.
    destruct (type_is i "transferChecked" || type_is i "transfer").
    + destruct (info (parsed i)) as [inf |]; [| discriminate].
      intros Hr. unfold bind, of_completion, ret. rewrite lift_normal.
      destruct (tokenAmount inf) as [ta |].
      * destruct (ta_uiAmount ta) as [u |]; [| discriminate].
        destruct ((ta_decimals ta =? 0)%N && strict_eq u (of_Z 1)).
        -- rewrite lift_normal. eauto.
        -- eauto.
      * destruct (ToBoolean (amount inf)); eauto.
    + intros _. unfold bind, ret. eauto.
Qed.

Lemma processInstruction_returns w tx idx instruction r s :
  readable instruction = true ->
  exists r' s', processInstruction w tx idx instruction r s = (Normal r', s').
Proof.
  intros Hr. unfold processInstruction. destruct instruction as [i | i].
  - destruct (extractTransfers_returns w i
                (push_interaction (interactionKey (IsParsed i)) r) s Hr)
      as (r1 & s1 & E).
    rewrite (bind_step _ _ _ _ _ E). unfold ret. eauto.
  - unfold ret. eauto.
Qed.

(** On a transaction whose instructions are all readable the interpreter
    returns a result. *)
Lemma classifyAndExtractInstructions_returns w tx s :
  forallb readable (tx_instructions tx) = true ->
  exists r s', classifyAndExtractInstructions w tx s = (Normal r, s').
Proof.
  unfold classifyAndExtractInstructions.
  generalize 0%nat at 1. generalize empty_result. revert s.
  induction (tx_instructions tx) as [| instruction rest IH]; intros s r idx H.
  - simpl. unfold ret. eauto.
  - simpl in H. apply andb_prop in H as [H1 H2].
    destruct (processInstruction_returns w tx idx instruction r s H1)
      as (r1 & s1 & E).
    simpl. rewrite (bind_step _ _ _ _ _ E). apply IH. exact H2.
Qed.

(** An empty instruction list is valid input and yields empty sequences. *)
Lemma classifyAndExtractInstructions_empty w inner s :
  classifyAndExtractInstructions w
    {| tx_instructions := []; tx_innerInstructions := inner |} s
  = (Normal empty_result, s).
Proof. reflexivity. Qed.

(** ** Proofs: first occurrences *)

Lemma includes_In x l : includes x l = true <-> In x l.
Proof.
  unfold includes. rewrite existsb_exists. split.
  - intros (y & Hy & E). apply String.eqb_eq in E. subst. exact Hy.
  - intros H. exists x. split; [exact H | apply String.eqb_refl].
Qed.

Lemma includes_snoc y acc k :
  includes y (acc ++ [k]) = includes y acc || String.eqb y k.
Proof.
  unfold includes. rewrite existsb_app. simpl. rewrite orb_false_r. reflexivity.
Qed.

Lemma filter_twice {A} (p q : A -> bool) (l : list A) :
  List.filter p (List.filter q l) = List.filter (fun x => q x && p x) l.
Proof.
  induction l as [| x l IH]; simpl; [reflexivity |].
  destruct (q x); simpl; [destruct (p x) |]; rewrite IH; reflexivity.
Qed.

Lemma fold_remember_key keys : forall acc,
  fold_left remember_key keys acc
  = acc ++ List.filter (fun y => negb (includes y acc)) (first_occurrences keys).
Proof.
  induction keys as [| k keys IH]; intros acc; simpl.
  - rewrite app_nil_r. reflexivity.
  - rewrite IH. unfold remember_key. rewrite filter_twice.
    destruct (includes k acc) eqn:Hk; simpl.
    + f_equal. apply filter_ext. intros y.
      destruct (String.eqb_spec k y) as [-> | _]; simpl; [| reflexivity].
      rewrite Hk. reflexivity.
    + rewrite <- app_assoc. simpl. do 2 f_equal. apply filter_ext. intros y.
      rewrite includes_snoc, negb_orb, (String.eqb_sym y k). apply andb_comm.
Qed.

Lemma filter_nothing_seen (l : list string) :
  List.filter (fun y => negb (includes y [])) l = l.
Proof.
  induction l as [| x l IH]; [reflexivity |].
  change (x :: List.filter (fun y => negb (includes y [])) l = x :: l).
  rewrite IH. reflexivity.
Qed.

Lemma first_occurrences_In x l : In x (first_occurrences l) <-> In x l.
Proof.
  induction l as [| y l IH]; simpl; [tauto |].
  rewrite filter_In, IH. destruct (String.eqb_spec y x) as [-> | Hne]; simpl.
  - split; [intros [H | [_ H]]; [auto | discriminate] | auto].
  - split; [intros [H | [H _]]; auto | intros [H | H]; auto].
Qed.

Lemma first_occurrences_NoDup l : List.NoDup (first_occurrences l).
Proof.
  induction l as [| x l IH]; simpl; constructor.
  - rewrite filter_In. intros [_ H]. rewrite String.eqb_refl in H. discriminate H.
  - apply List.NoDup_filter. exact IH.
Qed.

Lemma first_occurrences_ABAC (A B C : string) :
  A <> B -> A <> C -> B <> C -> first_occurrences [A; B; A; C] = [A; B; C].
Proof.
  intros AB AC BC. simpl.
  repeat match goal with
         | |- context [String.eqb ?x ?y] =>
             destruct (String.eqb_spec x y); try congruence; simpl
         end.
  reflexivity.
Qed.

(** C2. Whenever [classifyAndExtractInstructions] returns,
    [programInteractions] is the sequence of the instructions' program
    identifiers with every repetition after the first dropped: it has no
    duplicates, holds exactly the identifiers that occur, in the order of
    their first occurrence; identifiers [A, B, A, C] give [A, B, C]. *)
Theorem programInteractions_first_occurrences w tx s r s' :
  classifyAndExtractInstructions w tx s = (Normal r, s') ->
  let ids := map interactionKey (tx_instructions tx) in
  programInteractions r = first_occurrences ids
  /\ List.NoDup (programInteractions r)
  /\ (forall x, In x (programInteractions r) <-> In x ids)
  /\ (forall A B C, A <> B -> A <> C -> B <> C ->
      ids = [A; B; A; C] -> programInteractions r = [A; B; C]).
Proof.
  intros H ids. unfold classifyAndExtractInstructions in H.
  apply processFrom_effect in H as (Hp & _). simpl in Hp.
  rewrite fold_remember_key, filter_nothing_seen in Hp. simpl in Hp.
  fold ids in Hp. rewrite Hp. repeat split.
  - apply first_occurrences_NoDup.
  - apply first_occurrences_In.
  - apply first_occurrences_In.
  - intros A B C AB AC BC E. rewrite E. apply first_occurrences_ABAC; assumption.
Qed.

Lemma programInteractions_first_occurrences_witness :
  programInteractions
    (result_of (classifyAndExtractInstructions failing_world ABAC_transaction initial))
  = ["A"; "B"; "C"].
Proof.
  set (run := classifyAndExtractInstructions failing_world ABAC_transaction initial).
  destruct (programInteractions_first_occurrences failing_world ABAC_transaction
              initial (result_of run) (snd run)) as (_ & _ & _ & H).
  - vm_compute. reflexivity.
  - apply (H "A" "B" "C"); [discriminate | discriminate | discriminate |].
    vm_compute. reflexivity.
Defined.

(** ** Proofs: the metadata cache *)

Lemma within_ttl_timestamp now c :
  within_ttl now c = true ->
  exists ts, md_timestamp c = Some ts /\ now - ts < TTL.
Proof.
  unfold within_ttl. destruct (md_timestamp c) as [ts |]; [| discriminate].
  intros H. exists ts. split; [reflexivity | lia].
Qed.

Section OneKey.

Variable w : World.
Variable a : option string.
Variable t : string.

Lemma fetch_failure s :
  mint_answer w a s = None ->
  fetch w a t s
  = (Throw "Failed to fetch mint info", next_tick (log_mint a (next_tick s))).
Proof.
  unfold mint_answer, fetch, bind, now, getMintInfo, throw. simpl.
  destruct a as [x |]; [intros -> |]; reflexivity.
Qed.

Lemma fetch_success s mi :
  mint_answer w a s = Some mi ->
  exists md s3,
    fetch w a t s = (Normal md, cache_set (cacheKey a t) md s3)
    /\ md_error md = None
    /\ md_timestamp md = Some (Date_now w (tick s))
    /\ md_decimals md = mint_decimals mi
    /\ md_address md = a /\ md_type md = t
    /\ metadataCache s3 = metadataCache s
    /\ mintLookups s3 = mintLookups s ++ [a].
Proof.
  unfold mint_answer, fetch, bind, now, getMintInfo, getMetaplexMetadata, ret.
  simpl. destruct a as [x |]; [| discriminate]. intros ->.
  destruct (String.eqb t "NFT" || String.eqb t "SPL"); simpl.
  - destruct (getMetaplexAccount w (S (S (tick s))) x); destruct (String.eqb t "NFT");
      eexists _, _; (split; [reflexivity |]); simpl; repeat split; reflexivity.
  - destruct (String.eqb t "NFT");
      eexists _, _; (split; [reflexivity |]); simpl; repeat split; reflexivity.
Qed.

Lemma getTokenMetadata_hit s c :
  metadataCache s !! cacheKey a t = Some c ->
  within_ttl (Date_now w (tick s)) c = true ->
  getTokenMetadata w a t s = (c, next_tick s).
Proof.
  intros Hc Hf. unfold getTokenMetadata, try_catch, lookup_or_fetch.
  rewrite Hc. unfold bind, now. rewrite Hf. reflexivity.
Qed.

(** The state in which the fetch starts after a miss: the clock has been
    read once more when an entry was found but rejected. *)
Lemma getTokenMetadata_miss s :
  cached_fresh w a t s = false ->
  exists s0,
    getTokenMetadata w a t s
    = try_catch (fetch w a t) (fun _ s => (failure a t, s)) s0
    /\ metadataCache s0 = metadataCache s
    /\ mintLookups s0 = mintLookups s
    /\ metaplexLookups s0 = metaplexLookups s.
Proof.
  unfold cached_fresh, getTokenMetadata, try_catch, lookup_or_fetch.
  destruct (metadataCache s !! cacheKey a t) as [c |].
  - intros Hf. exists (next_tick s). unfold bind at 1, now at 1. rewrite Hf.
    repeat split; reflexivity.
  - intros _. exists s. repeat split; reflexivity.
Qed.

Lemma try_fetch_outcome s0 md s1 :
  try_catch (fetch w a t) (fun _ s => (failure a t, s)) s0 = (md, s1) ->
  mintLookups s1 = mintLookups s0 ++ [a]
  /\ ((md_error md = None
       /\ metadataCache s1 !! cacheKey a t = Some md
       /\ md_timestamp md = Some (Date_now w (tick s0)))
      \/ (md = failure a t /\ metadataCache s1 = metadataCache s0)).
Proof.
  unfold try_catch. destruct (mint_answer w a s0) as [mi |] eqn:Hm.
  - destruct (fetch_success s0 mi Hm)
      as (md' & s3 & E & He & Ht & _ & _ & _ & Hc & Hl).
    rewrite E. intros H. inversion H; subst. simpl. split; [exact Hl |].
    left. repeat split; [exact He | apply lookup_insert_eq | exact Ht].
  - rewrite (fetch_failure s0 Hm). intros H. inversion H; subst. simpl.
    split; [reflexivity |]. right. split; reflexivity.
Qed.

(** Every resolution leaves the cache as it was or adds the returned
    record under the key; the record is in the cache whenever it carries
    no error mark. *)
Lemma getTokenMetadata_outcome s md s1 :
  getTokenMetadata w a t s = (md, s1) ->
  (cached_fresh w a t s = true
   /\ metadataCache s !! cacheKey a t = Some md
   /\ metadataCache s1 = metadataCache s
   /\ mintLookups s1 = mintLookups s
   /\ metaplexLookups s1 = metaplexLookups s
   /\ exists ts, md_timestamp md = Some ts)
  \/ (cached_fresh w a t s = false
      /\ mintLookups s1 = mintLookups s ++ [a]
      /\ ((md_error md = None
           /\ metadataCache s1 !! cacheKey a t = Some md
           /\ exists ts, md_timestamp md = Some ts)
          \/ (md = failure a t /\ metadataCache s1 = metadataCache s))).
Proof.
  intros H. destruct (cached_fresh w a t s) eqn:Hf.
  - left. unfold cached_fresh in Hf.
    destruct (metadataCache s !! cacheKey a t) as [c |] eqn:Hc; [| discriminate].
    rewrite (getTokenMetadata_hit s c Hc Hf) in H. inversion H; subst.
    destruct (within_ttl_timestamp _ _ Hf) as (ts & Hts & _).
    repeat split; eauto.
  - right. destruct (getTokenMetadata_miss s Hf) as (s0 & E & Hc & Hl & _).
    rewrite E in H. apply try_fetch_outcome in H as (Hl1 & Hcase).
    split; [reflexivity |]. split; [rewrite Hl1, Hl; reflexivity |].
    destruct Hcase as [(He & Hk & Ht) | (Hfail & Hsame)].
    + left. eauto.
    + right. split; [exact Hfail | rewrite Hsame; exact Hc].
Qed.

End OneKey.

(** A returned record without error mark sits in the cache under the key
    and carries its fetch time. *)
Lemma unmarked_result_cached w a t s md s1 :
  getTokenMetadata w a t s = (md, s1) ->
  md_error md = None ->
  metadataCache s1 !! cacheKey a t = Some md
  /\ exists ts, md_timestamp md = Some ts.
Proof.
  intros H He. apply getTokenMetadata_outcome in H
    as [(_ & Hk & Hc & _ & _ & Hts) | (_ & _ & [(_ & Hk & Hts) | (Hf & _)])].
  - rewrite Hc. auto.
  - auto.
  - subst md. discriminate He.
Qed.

(** A resolution for a missing mint address fails in every world, unless a
    fresh entry is cached under the key "undefined-<kind>". *)
Lemma missing_mint_is_unresolved w t s :
  cached_fresh w None t s = false ->
  fst (getTokenMetadata w None t s) = failure None t
  /\ md_decimals (fst (getTokenMetadata w None t s)) = None.
Proof.
  intros Hf. destruct (getTokenMetadata_miss w None t s Hf) as (s0 & E & _).
  rewrite E. unfold try_catch. rewrite (fetch_failure w None t s0 eq_refl).
  split; reflexivity.
Qed.

(** C5, as the code has it. A resolution result that carries no error mark
    is in the cache under its key when [getTokenMetadata] returns it; a
    result degraded to an error-marked record is returned without being
    stored, the cache staying as it was. *)
Theorem unmarked_result_is_stored w a t s md s1 :
  getTokenMetadata w a t s = (md, s1) ->
  (md_error md = None -> metadataCache s1 !! cacheKey a t = Some md)
  /\ (md_error md <> None -> metadataCache s1 = metadataCache s).
Proof.
  intros H. apply getTokenMetadata_outcome in H
    as [(_ & Hk & Hc & _) | (_ & _ & [(He & Hk & _) | (Hf & Hc)])].
  - split; intros _; [rewrite Hc; exact Hk | exact Hc].
  - split; intros H; [exact Hk | congruence].
  - split; intros H; [subst md; discriminate H | exact Hc].
Qed.

Lemma unmarked_result_is_stored_witness :
  let run := getTokenMetadata (resolving_world 2) (Some "MintM") "SPL" initial in
  metadataCache (snd run) !! cacheKey (Some "MintM") "SPL" = Some (fst run).
Proof.
  intros run.
  apply (proj1 (unmarked_result_is_stored (resolving_world 2) (Some "MintM") "SPL"
                  initial (fst run) (snd run) eq_refl)).
  reflexivity.
Defined.

(** C5 as stated fails: a resolution degraded by a lookup failure returns
    its error-marked record and the cache holds nothing under the key. *)
Lemma degraded_result_is_not_stored :
  let run := getTokenMetadata failing_world (Some "MintM") "SPL" initial in
  md_error (fst run) = Some "Failed to fetch metadata"
  /\ metadataCache (snd run) !! cacheKey (Some "MintM") "SPL" = None
  /\ metadataCache (snd run) !! cacheKey (Some "MintM") "SPL" <> Some (fst run).
Proof. vm_compute. repeat split; discriminate. Qed.

(** C6, as the code has it. After a resolution that returned a record
    without error mark, fetched at [fetchedAt], a second resolution for the
    same key whose clock reading is less than one hour past [fetchedAt]
    makes no lookup and returns that record verbatim, so a first resolution
    that had to fetch and the second make exactly one mint lookup together;
    a second resolution one hour or more past [fetchedAt] makes a new
    lookup. *)
Theorem second_resolution_within_ttl w a t s md1 s1 md2 s2 :
  getTokenMetadata w a t s = (md1, s1) ->
  md_error md1 = None ->
  getTokenMetadata w a t s1 = (md2, s2) ->
  exists fetchedAt,
    md_timestamp md1 = Some fetchedAt
    /\ (Date_now w (tick s1) - fetchedAt < TTL ->
        md2 = md1
        /\ mintLookups s2 = mintLookups s1
        /\ metaplexLookups s2 = metaplexLookups s1
        /\ (cached_fresh w a t s = false -> mintLookups s2 = mintLookups s ++ [a]))
    /\ (TTL <= Date_now w (tick s1) - fetchedAt ->
        mintLookups s2 = mintLookups s1 ++ [a]).
Proof.
  intros H1 He H2.
  destruct (unmarked_result_cached w a t s md1 s1 H1 He) as (Hk & ts & Hts).
  exists ts. split; [exact Hts |].
  assert (Hfresh : cached_fresh w a t s1 = (Date_now w (tick s1) - ts <? TTL)).
  { unfold cached_fresh, within_ttl. rewrite Hk, Hts. reflexivity. }
  split; intros Hage.
  - assert (Hhit : within_ttl (Date_now w (tick s1)) md1 = true).
    { unfold within_ttl. rewrite Hts. apply Z.ltb_lt. exact Hage. }
    rewrite (getTokenMetadata_hit w a t s1 md1 Hk Hhit) in H2.
    inversion H2; subst. simpl. repeat split.
    intros Hmiss. apply getTokenMetadata_outcome in H1
      as [(Hf & _) | (_ & Hl & _)]; [congruence | exact Hl].
  - apply getTokenMetadata_outcome in H2 as [(Hf & _) | (_ & Hl & _)].
    + rewrite Hfresh in Hf. apply Z.ltb_lt in Hf. lia.
    + exact Hl.
Qed.

Lemma second_resolution_within_ttl_witness :
  let w := resolving_world 2 in
  let run1 := getTokenMetadata w (Some "MintM") "SPL" initial in
  let run2 := getTokenMetadata w (Some "MintM") "SPL" (snd run1) in
  fst run2 = fst run1 /\ mintLookups (snd run2) = [Some "MintM"].
Proof.
  intros w run1 run2.
  destruct (second_resolution_within_ttl w (Some "MintM") "SPL" initial
              (fst run1) (snd run1) (fst run2) (snd run2))
    as (fetchedAt & Hts & Hin & _);
    [reflexivity | reflexivity | reflexivity |].
  assert (E : fetchedAt = 0) by (vm_compute in Hts; congruence).
  destruct Hin as (Hsame & _ & _ & Hone).
  - rewrite E. vm_compute. reflexivity.
  - split; [exact Hsame | apply Hone; reflexivity].
Defined.

(** After expiry the second resolution looks the mint up again. *)
Lemma second_resolution_after_expiry :
  let w := slow_world 2 in
  let run1 := getTokenMetadata w (Some "MintM") "SPL" initial in
  let run2 := getTokenMetadata w (Some "MintM") "SPL" (snd run1) in
  mintLookups (snd run2) = [Some "MintM"; Some "MintM"].
Proof. vm_compute. reflexivity. Qed.

(** C6 as stated fails on failure entries: nothing is cached when the
    lookup fails, so two resolutions at the same clock reading make two
    lookups, not one. *)
Lemma failed_resolution_is_looked_up_again :
  let w := failing_world in
  let run1 := getTokenMetadata w (Some "MintM") "SPL" initial in
  let run2 := getTokenMetadata w (Some "MintM") "SPL" (snd run1) in
  md_error (fst run1) = Some "Failed to fetch metadata"
  /\ Date_now w (tick (snd run1)) - Date_now w (tick initial) < TTL
  /\ mintLookups (snd run2) = [Some "MintM"; Some "MintM"]
  /\ length (mintLookups (snd run2)) <> 1%nat.
Proof. vm_compute. repeat split; discriminate. Qed.

(** ** Proofs: token, NFT and native transfers *)

Lemma parseTokenTransfer_recognized w p s i :
  type_is p "transferChecked" || type_is p "transfer" = true ->
  info (parsed p) = Some i ->
  let run := getTokenMetadata w (str_or (mint i) (token i)) "SPL" s in
  parseTokenTransfer w p s
  = match tokenTransferValue w i (fst run) with
    | Normal v => (Normal (Some (spl_transfer i (fst run) v)), snd run)
    | Throw e => (Throw e, snd run)
    end.
Proof.
  intros Ht Hi run. unfold parseTokenTransfer, info_of. rewrite Ht, Hi.
  unfold bind at 1, of_completion at 1. unfold bind at 1. rewrite lift_normal.
  fold run. unfold bind, of_completion, ret.
  destruct (tokenTransferValue w i (fst run)); reflexivity.
Qed.

Lemma parseNFTTransfer_recognized w p s i :
  type_is p "transferChecked" || type_is p "transfer" = true ->
  info (parsed p) = Some i ->
  let run := getTokenMetadata w (mint i) "NFT" s in
  parseNFTTransfer w p s
  = if nft_shape i then (Normal (Some (nft_transfer i (fst run))), snd run)
    else (Normal None, s).
Proof.
  intros Ht Hi run. unfold parseNFTTransfer, info_of. rewrite Ht, Hi.
  unfold bind at 1, of_completion at 1. destruct (nft_shape i); [| reflexivity].
  unfold bind. rewrite lift_normal. reflexivity.
Qed.

Lemma value_250_over_100 : toString (div (of_Z 250) (pow10 2)) = "2.5"%string.
Proof. vm_compute. reflexivity. Qed.

Lemma value_250_over_1e9 : toString (div (of_Z 250) (pow10 9)) = "2.5e-7"%string.
Proof. vm_compute. reflexivity. Qed.

Lemma value_250_over_1 : toString (div (of_Z 250) (pow10 0)) = "250"%string.
Proof. vm_compute. reflexivity. Qed.

(** [pow10] is exact up to exponent 22: the Number it returns has the
    value [10^d]. *)
Lemma pow10_exact d :
  (d <= 22)%N ->
  exists m e,
    pow10 d = S754_finite false m e
    /\ (if 0 <=? e then Zpos m * 2 ^ e = 10 ^ Z.of_N d
        else Zpos m = 10 ^ Z.of_N d * 2 ^ (- e)).
Proof.
  intros H.
  assert (Hc : In d (map N.of_nat (seq 0 23))).
  { apply in_map_iff. exists (N.to_nat d). split; [apply N2Nat.id |].
    apply in_seq. lia. }
  simpl in Hc.
  repeat (destruct Hc as [<- | Hc];
          [vm_compute; eexists _, _; split; reflexivity |]).
  destruct Hc.
Qed.

Lemma Math_pow10_small w d : (d <= 22)%N -> Math_pow10 w d = pow10 d.
Proof.
  intros H. unfold Math_pow10. apply N.leb_le in H. rewrite H. reflexivity.
Qed.

(** C3, as the code has it. For a parsed token instruction tagged
    [transfer] or [transferChecked] the value of the extracted SPL transfer
    is the display amount printed by Number-to-string when the token amount
    object carries one; with no token amount object and a truthy raw amount
    it is [rawAmount / Math.pow(10, decimals)] printed by Number-to-string,
    where [decimals] is a non-zero resolved value, or 9 when the metadata
    carries none. [Math.pow(10, decimals)] is [10^decimals] exactly for
    [decimals <= 22]; beyond, it is what the runtime returns. Raw amount
    250 with resolved decimals 2 gives "2.5"; with unresolved metadata it
    gives "2.5e-7". *)
Theorem token_transfer_value w p s i md s1 :
  type_is p "transferChecked" || type_is p "transfer" = true ->
  info (parsed p) = Some i ->
  getTokenMetadata w (str_or (mint i) (token i)) "SPL" s = (md, s1) ->
  (forall ta u, tokenAmount i = Some ta -> ta_uiAmount ta = Some u ->
     parseTokenTransfer w p s
     = (Normal (Some (spl_transfer i md (toString u))), s1))
  /\ (tokenAmount i = None -> ToBoolean (amount i) = true ->
      exists v,
        parseTokenTransfer w p s = (Normal (Some (spl_transfer i md v)), s1)
        /\ (forall d, md_decimals md = Some d -> d <> 0%N ->
            v = toString (div (ToNumber (amount i)) (Math_pow10 w d))
            /\ ((d <= 22)%N ->
                v = toString (div (ToNumber (amount i)) (pow10 d)))
            /\ ((22 < d)%N ->
                v = toString (div (ToNumber (amount i)) (runtime_pow10 w d))))
        /\ (md_decimals md = None ->
            v = toString (div (ToNumber (amount i)) (pow10 9)))
        /\ (ToNumber (amount i) = of_Z 250 -> md_decimals md = Some 2%N ->
            v = "2.5"%string)
        /\ (ToNumber (amount i) = of_Z 250 -> md_decimals md = None ->
            v = "2.5e-7"%string)).
Proof.
  intros Ht Hi Hmd.
  pose proof (parseTokenTransfer_recognized w p s i Ht Hi) as E.
  cbv zeta in E. rewrite Hmd in E. simpl in E. split.
  - intros ta u Hta Hu. rewrite E. unfold tokenTransferValue.
    rewrite Hta, Hu. reflexivity.
  - intros Hta Ha. unfold tokenTransferValue in E. rewrite Hta, Ha in E.
    eexists. split; [exact E |]. unfold decimals_or_9. repeat split.
    + rewrite H. destruct d; [congruence | reflexivity].
    + intros Hle. rewrite H. rewrite <- (Math_pow10_small w d Hle).
      destruct d; [congruence | reflexivity].
    + intros Hgt. rewrite H. destruct d as [| q]; [congruence |].
      unfold Math_pow10. apply N.leb_gt in Hgt. rewrite Hgt. reflexivity.
    + intros Hd. rewrite Hd. reflexivity.
    + intros H250 Hd. rewrite Hd, H250. apply value_250_over_100.
    + intros H250 Hd. rewrite Hd, H250. apply value_250_over_1e9.
Qed.

Lemma token_transfer_value_witness :
  let w := resolving_world 2 in
  let p := raw_transfer_250_of_mint in
  exists md s1,
    parseTokenTransfer w p initial
    = (Normal (Some (spl_transfer (info_or_none p) md "2.5")), s1).
Proof.
  intros w p.
  set (run := getTokenMetadata w (Some "MintM") "SPL" initial).
  destruct (token_transfer_value w p initial (info_or_none p) (fst run) (snd run))
    as (_ & H); [reflexivity | reflexivity | reflexivity |].
  destruct H as (v & E & _ & _ & H250 & _); [reflexivity | reflexivity |].
  exists (fst run), (snd run). rewrite E, H250; reflexivity.
Defined.

(** C3 as stated fails on its second example: a raw amount of 250 whose
    metadata does not resolve is divided by [10^9] and printed as
    "2.5e-7", not as "0.00000025". *)
Lemma unresolved_250_is_printed_with_exponent :
  let run := parseTokenTransfer failing_world raw_transfer_250 initial in
  exists t,
    fst run = Normal (Some t)
    /\ tr_token t = Resolved (failure None "SPL")
    /\ value t = Some "2.5e-7"%string
    /\ value t <> Some "0.00000025"%string.
Proof.
  vm_compute. eexists. split; [reflexivity |]. repeat split. discriminate.
Qed.

(** C9. A token transfer that carries only a raw amount and whose metadata
    resolves with [decimals = 0] is valued as [rawAmount / 10^9]: the
    fallback [tokenMetadata.decimals || 9] takes the zero for a missing
    value. A raw amount of 250 gives "2.5e-7", where division by [10^0]
    would give "250". *)
Theorem zero_decimals_become_nine w p s i md s1 :
  type_is p "transferChecked" || type_is p "transfer" = true ->
  info (parsed p) = Some i ->
  tokenAmount i = None ->
  ToBoolean (amount i) = true ->
  getTokenMetadata w (str_or (mint i) (token i)) "SPL" s = (md, s1) ->
  md_error md = None ->
  md_decimals md = Some 0%N ->
  decimals_or_9 md = 9%N
  /\ parseTokenTransfer w p s
     = (Normal (Some (spl_transfer i md
                        (toString (div (ToNumber (amount i)) (pow10 9))))), s1)
  /\ (ToNumber (amount i) = of_Z 250 ->
      toString (div (ToNumber (amount i)) (pow10 9)) = "2.5e-7"%string
      /\ toString (div (ToNumber (amount i)) (pow10 0)) = "250"%string).
Proof.
  intros Ht Hi Hta Ha Hmd _ Hd.
  pose proof (parseTokenTransfer_recognized w p s i Ht Hi) as E.
  cbv zeta in E. rewrite Hmd in E. simpl in E.
  unfold tokenTransferValue in E. rewrite Hta, Ha in E.
  assert (H9 : decimals_or_9 md = 9%N) by (unfold decimals_or_9; rewrite Hd; reflexivity).
  rewrite H9 in E. change (Math_pow10 w 9%N) with (pow10 9) in E.
  split; [exact H9 |]. split; [exact E |].
  intros ->. split; [apply value_250_over_1e9 | apply value_250_over_1].
Qed.

Lemma zero_decimals_become_nine_witness :
  let w := resolving_world 0 in
  let p := raw_transfer_250_of_mint in
  let run := getTokenMetadata w (Some "MintM") "SPL" initial in
  md_decimals (fst run) = Some 0%N
  /\ parseTokenTransfer w p initial
     = (Normal (Some (spl_transfer (info_or_none p) (fst run) "2.5e-7")), snd run).
Proof.
  intros w p run. split; [reflexivity |].
  destruct (zero_decimals_become_nine w p initial (info_or_none p) (fst run) (snd run))
    as (_ & E & H250);
    [reflexivity | reflexivity | reflexivity | reflexivity | reflexivity
    | reflexivity | reflexivity |].
  destruct H250 as (Hv & _); [reflexivity |].
  rewrite E. simpl ToNumber. simpl ToNumber in Hv. rewrite Hv. reflexivity.
Defined.

Lemma nft_shape_true i :
  nft_shape i = true <->
  exists ta u, tokenAmount i = Some ta /\ ta_decimals ta = 0%N
               /\ ta_uiAmount ta = Some u /\ strict_eq u (of_Z 1) = true.
Proof.
  unfold nft_shape. split.
  - destruct (tokenAmount i) as [ta |]; [| discriminate].
    intros H. apply andb_prop in H as [Hd Hu]. apply N.eqb_eq in Hd.
    destruct (ta_uiAmount ta) as [u |] eqn:Eu; [| discriminate].
    exists ta, u. auto.
  - intros (ta & u & -> & Hd & -> & Hu). rewrite Hd, Hu. reflexivity.
Qed.

(** C4. A parsed token instruction tagged [transfer] or [transferChecked]
    whose token amount has [decimals = 0] and [uiAmount = 1], with mint
    [M], passes both tests: the fungible path yields its SPL transfer, the
    NFT path then yields an NFT transfer with [tokenId = M], and the loop
    appends both, the NFT transfer after the SPL one. *)
Theorem nft_transfer_in_addition w tx idx p r s i ta u M :
  program p = "spl-token"%string ->
  type_is p "transferChecked" || type_is p "transfer" = true ->
  info (parsed p) = Some i ->
  tokenAmount i = Some ta ->
  ta_decimals ta = 0%N ->
  ta_uiAmount ta = Some u ->
  strict_eq u (of_Z 1) = true ->
  mint i = Some M ->
  exists spl nft s1 s2 r' r'',
    parseTokenTransfer w p s = (Normal (Some spl), s1)
    /\ tokenType spl = SPL
    /\ value spl = Some (toString u)
    /\ parseNFTTransfer w p s1 = (Normal (Some nft), s2)
    /\ tokenType nft = NFT
    /\ tokenId nft = Some M
    /\ extractTransfers w p r s = (Normal r', s2)
    /\ transfers r' = transfers r ++ [spl; nft]
    /\ processInstruction w tx idx (IsParsed p) r s = (Normal r'', s2)
    /\ transfers r'' = transfers r ++ [spl; nft].
Proof.
  intros Hp Ht Hi Hta Hd Hu H1 HM.
  set (run1 := getTokenMetadata w (str_or (mint i) (token i)) "SPL" s).
  set (run2 := getTokenMetadata w (mint i) "NFT" (snd run1)).
  assert (E1 : parseTokenTransfer w p s
               = (Normal (Some (spl_transfer i (fst run1) (toString u))), snd run1)).
  { rewrite (parseTokenTransfer_recognized w p s i Ht Hi). fold run1.
    unfold tokenTransferValue. rewrite Hta, Hu. reflexivity. }
  assert (E2 : parseNFTTransfer w p (snd run1)
               = (Normal (Some (nft_transfer i (fst run2))), snd run2)).
  { rewrite (parseNFTTransfer_recognized w p (snd run1) i Ht Hi). fold run2.
    replace (nft_shape i) with true; [reflexivity |].
    symmetry. apply nft_shape_true. exists ta, u. auto. }
  assert (E3 : forall r0, extractTransfers w p r0 s
               = (Normal (push_transfer (nft_transfer i (fst run2)) "NFT Transfer"
                            (push_transfer (spl_transfer i (fst run1) (toString u))
                               "Token Transfer" r0)), snd run2)).
  { intros r0. unfold extractTransfers. rewrite Hp.
    change (String.eqb "spl-token" "system") with false.
    change (String.eqb "spl-token" "spl-token") with true. cbv iota.
    rewrite (bind_step _ _ _ _ _ E1). simpl push_if.
    rewrite (bind_step _ _ _ _ _ E2). reflexivity. }
  eexists _, _, _, _, _, _.
  split; [exact E1 |]. split; [reflexivity |]. split; [reflexivity |].
  split; [exact E2 |]. split; [reflexivity |]. split; [exact HM |].
  split; [apply E3 |]. split; [simpl; rewrite <- app_assoc; reflexivity |].
  split.
  - unfold processInstruction. rewrite (bind_step _ _ _ _ _ (E3 _)). reflexivity.
  - simpl. rewrite <- app_assoc. reflexivity.
Qed.

Lemma nft_transfer_in_addition_witness :
  let r := result_of (classifyAndExtractInstructions failing_world
                        {| tx_instructions := [IsParsed nft_like_transfer];
                           tx_innerInstructions := None |} initial) in
  map tokenType (transfers r) = [SPL; NFT]
  /\ map tokenId (tl (transfers r)) = [Some "MintM"%string].
Proof.
  intros r.
  destruct (nft_transfer_in_addition failing_world
              {| tx_instructions := [IsParsed nft_like_transfer];
                 tx_innerInstructions := None |} 0 nft_like_transfer empty_result
              initial (info_or_none nft_like_transfer)
              {| ta_decimals := 0; ta_uiAmount := Some (of_Z 1) |} (of_Z 1) "MintM")
    as (spl & nft & s1 & s2 & r' & r'' & _ & Hs & _ & _ & Hn & Hid & _ & _ & E & Ht);
    [reflexivity | reflexivity | reflexivity | reflexivity | reflexivity
    | reflexivity | reflexivity | reflexivity |].
  assert (Hr : r = r'').
  { unfold r, result_of, classifyAndExtractInstructions. simpl processFrom.
    rewrite (bind_step _ _ _ _ _ E). reflexivity. }
  rewrite Hr, Ht. simpl. rewrite Hs, Hn, Hid. split; reflexivity.
Defined.

(** C10. [parseNFTTransfer] yields a transfer only for an instruction
    tagged [transfer] or [transferChecked] whose [info] carries a token
    amount object with [decimals === 0] and [uiAmount === 1]; when [info]
    carries no token amount object it yields [null] and looks nothing up,
    whatever the world would answer about the mint and whatever the cache
    holds. *)
Theorem nft_transfer_needs_token_amount w p s :
  (forall t s', parseNFTTransfer w p s = (Normal (Some t), s') ->
     type_is p "transferChecked" || type_is p "transfer" = true
     /\ tokenType t = NFT
     /\ exists i ta u,
          info (parsed p) = Some i /\ tokenAmount i = Some ta
          /\ ta_decimals ta = 0%N /\ ta_uiAmount ta = Some u
          /\ strict_eq u (of_Z 1) = true)
  /\ (forall i, info (parsed p) = Some i -> tokenAmount i = None ->
      parseNFTTransfer w p s = (Normal None, s)).
Proof.
  split.
  - intros t s' H.
    destruct (type_is p "transferChecked" || type_is p "transfer") eqn:Ht.
    + destruct (info (parsed p)) as [i |] eqn:Hi.
      * rewrite (parseNFTTransfer_recognized w p s i Ht Hi) in H.
        destruct (nft_shape i) eqn:Hs; [| discriminate H].
        inversion H; subst. split; [reflexivity |]. split; [reflexivity |].
        apply nft_shape_true in Hs as (ta & u & H1 & H2 & H3 & H4).
        exists i, ta, u. auto.
      * unfold parseNFTTransfer, info_of in H. rewrite Ht, Hi in H.
        discriminate H.
    + unfold parseNFTTransfer in H. rewrite Ht in H. discriminate H.
  - intros i Hi Hta.
    destruct (type_is p "transferChecked" || type_is p "transfer") eqn:Ht.
    + rewrite (parseNFTTransfer_recognized w p s i Ht Hi).
      unfold nft_shape. rewrite Hta. reflexivity.
    + unfold parseNFTTransfer. rewrite Ht. reflexivity.
Qed.

Lemma nft_transfer_needs_token_amount_witness :
  parseNFTTransfer (resolving_world 0) raw_transfer_250_of_mint initial
  = (Normal None, initial)
  /\ nft_shape (info_or_none nft_like_transfer) = true.
Proof.
  split.
  - apply (proj2 (nft_transfer_needs_token_amount (resolving_world 0)
                    raw_transfer_250_of_mint initial)
             (info_or_none raw_transfer_250_of_mint)); reflexivity.
  - set (run := parseNFTTransfer failing_world nft_like_transfer initial).
    destruct (proj1 (nft_transfer_needs_token_amount failing_world
                       nft_like_transfer initial)
                (nft_transfer (info_or_none nft_like_transfer)
                   (failure (Some "MintM"%string) "NFT")) (snd run))
      as (_ & _ & i & ta & u & Hi & Hta & Hd & Hu & H1);
      [vm_compute; reflexivity |].
    apply nft_shape_true. exists ta, u.
    assert (Hii : Some i = Some (info_or_none nft_like_transfer))
      by (rewrite <- Hi; reflexivity).
    injection Hii as ->. auto.
Defined.

(** C8. A parsed system instruction tagged [transfer] or
    [transferWithSeed] yields a Native transfer whose value is the lamport
    amount divided by [1e9], printed by Number-to-string; the loop records
    it. 1,500,000,000 lamports give "1.5". *)
Theorem native_transfer_value p i :
  type_is p "transfer" || type_is p "transferWithSeed" = true ->
  info (parsed p) = Some i ->
  parseSystemInstruction p = Normal (Some (native_transfer i))
  /\ tokenType (native_transfer i) = Native
  /\ value (native_transfer i)
     = Some (toString (div (ToNumber (lamports i)) (of_Z (10 ^ 9))))
  /\ (ToNumber (lamports i) = of_Z 1500000000 ->
      value (native_transfer i) = Some "1.5"%string)
  /\ (program p = "system"%string ->
      forall w r s,
        extractTransfers w p r s
        = (Normal (push_transfer (native_transfer i) "Native Transfer" r), s)).
Proof.
  intros Ht Hi.
  assert (E : parseSystemInstruction p = Normal (Some (native_transfer i))).
  { unfold parseSystemInstruction, info_of. rewrite Ht, Hi. reflexivity. }
  split; [exact E |]. split; [reflexivity |]. split; [reflexivity |]. split.
  - intros H. simpl. rewrite H. vm_compute. reflexivity.
  - intros Hp w r s. unfold extractTransfers. rewrite Hp.
    change (String.eqb "system" "system") with true. cbv iota.
    unfold bind, of_completion. rewrite E. reflexivity.
Qed.

Lemma native_transfer_value_witness :
  exists t, parseSystemInstruction sol_transfer = Normal (Some t)
            /\ tokenType t = Native /\ value t = Some "1.5"%string.
Proof.
  destruct (native_transfer_value sol_transfer (info_or_none sol_transfer))
    as (E & Hn & _ & H15 & _); [reflexivity | reflexivity |].
  exists (native_transfer (info_or_none sol_transfer)).
  split; [exact E |]. split; [exact Hn |]. apply H15. reflexivity.
Defined.

(** ** Proofs: the registry and the labels *)

Lemma fold_insert_lookup (l : list ProgramInfo) :
  forall (m : gmap string ProgramInfo) k p,
    fold_left (fun m p => <[template (id p) := p]> m) l m !! k = Some p ->
    In p l \/ m !! k = Some p.
Proof.
  induction l as [| q l IH]; intros m k p H; simpl in *.
  - right. exact H.
  - apply IH in H as [H | H]; [left; right; exact H |].
    apply lookup_insert_Some in H as [[_ ->] | [_ H]]; auto.
Qed.

Lemma PROGRAM_ID_MAP_known k p :
  PROGRAM_ID_MAP !! k = Some p -> In p KNOWN_PROGRAMS.
Proof.
  intros H. apply fold_insert_lookup in H as [H | H]; [exact H |].
  rewrite lookup_empty in H. discriminate H.
Qed.

Lemma known_programs_plain : forallb plain_table KNOWN_PROGRAMS = true.
Proof. vm_compute. reflexivity. Qed.

Lemma getProgramInfo_plain programId : plain_table (getProgramInfo programId) = true.
Proof.
  unfold getProgramInfo.
  destruct (PROGRAM_ID_MAP !! toBase58_or_toString programId) as [p |] eqn:E.
  - apply PROGRAM_ID_MAP_known in E.
    pose proof known_programs_plain as H. rewrite forallb_forall in H. auto.
  - reflexivity.
Qed.

Lemma own_In table k v : own table k = Some v -> In (k, v) table.
Proof.
  induction table as [| [k' v'] table IH]; simpl; [discriminate |].
  destruct (String.eqb_spec k' k) as [-> | _].
  - intros H. inversion H. auto.
  - auto.
Qed.

Lemma plain_table_label p k v :
  plain_table p = true -> own (instructions p) k = Some v ->
  value_truthy (JString v) = true.
Proof.
  unfold plain_table. intros H Ho.
  apply andb_prop in H as [H _]. apply andb_prop in H as [H _].
  rewrite forallb_forall in H. apply (H (k, v)). apply own_In. exact Ho.
Qed.

Lemma get_default table : get table "default" = of_option (own table "default").
Proof. unfold get. destruct (own table "default"); reflexivity. Qed.

(** C7, as the code has it. For a parsed instruction the label is the exact
    tag match in the program descriptor's label table, else the raw tag
    verbatim (when the tag does not name a member every object inherits),
    and [undefined] when there is no tag; the default label is not
    consulted. For a partially decoded instruction the label is the
    descriptor's default label, else "Unknown Instruction". *)
Theorem instruction_label w inner :
  (forall p tag label,
     type (parsed p) = Some tag ->
     own (instructions (getProgramInfo (programId p))) tag = Some label ->
     instructionName (parseInstructionDetail w (IsParsed p) inner) = JString label)
  /\ (forall p tag,
        type (parsed p) = Some tag ->
        own (instructions (getProgramInfo (programId p))) tag = None ->
        includes tag object_prototype_members = false ->
        instructionName (parseInstructionDetail w (IsParsed p) inner) = JString tag)
  /\ (forall p,
        type (parsed p) = None ->
        instructionName (parseInstructionDetail w (IsParsed p) inner) = JUndefined)
  /\ (forall p label,
        own (instructions (getProgramInfo (pd_programId p))) "default" = Some label ->
        instructionName (parseInstructionDetail w (IsPartiallyDecoded p) inner)
        = JString label)
  /\ (forall p,
        own (instructions (getProgramInfo (pd_programId p))) "default" = None ->
        instructionName (parseInstructionDetail w (IsPartiallyDecoded p) inner)
        = JString "Unknown Instruction").
Proof.
  repeat split.
  - intros p tag label Ht Ho. simpl. rewrite Ht. simpl. unfold get. rewrite Ho.
    unfold value_or.
    rewrite (plain_table_label _ _ _ (getProgramInfo_plain (programId p)) Ho).
    reflexivity.
  - intros p tag Ht Ho Hm. simpl. rewrite Ht. simpl. unfold get.
    rewrite Ho, Hm. reflexivity.
  - intros p Ht. simpl. rewrite Ht. simpl. unfold get.
    pose proof (getProgramInfo_plain (programId p)) as H. unfold plain_table in H.
    apply andb_prop in H as [H _]. apply andb_prop in H as [_ H].
    destruct (own (instructions (getProgramInfo (programId p))) "undefined");
      [discriminate H | reflexivity].
  - intros p label Ho. simpl. rewrite Ho.
    pose proof (getProgramInfo_plain (pd_programId p)) as H.
    pose proof (plain_table_label _ _ _ H Ho) as Hl.
    unfold plain_table in H. apply andb_prop in H as [_ H]. rewrite Ho in H.
    apply andb_prop in H as [H1 H2].
    unfold str_or, str_truthy. simpl in Hl. rewrite Hl. unfold get.
    destruct (own (instructions (getProgramInfo (pd_programId p))) label);
      [discriminate H1 |].
    apply negb_true_iff in H2. rewrite H2. reflexivity.
  - intros p Ho. simpl. rewrite Ho.
    pose proof (getProgramInfo_plain (pd_programId p)) as H.
    unfold plain_table in H. apply andb_prop in H as [_ H]. rewrite Ho in H.
    simpl. unfold get.
    destruct (own (instructions (getProgramInfo (pd_programId p)))
                "Unknown Instruction"); [discriminate H | reflexivity].
Qed.

Lemma instruction_label_witness :
  instructionName (parseInstructionDetail failing_world (IsParsed sol_transfer) [])
  = JString "Transfer SOL"
  /\ instructionName (parseInstructionDetail failing_world (IsParsed vote_instruction) [])
     = JString "vote"
  /\ instructionName (parseInstructionDetail failing_world
                        (opaque "JUP4Fb2cqiRUcaTHdrPC8h2gNsA2ETXiPDD33WcGuJB") [])
     = JString "Swap Tokens".
Proof.
  destruct (instruction_label failing_world []) as (H1 & H2 & _ & H4 & _).
  split; [| split].
  - apply (H1 sol_transfer "transfer"%string); vm_compute; reflexivity.
  - apply (H2 vote_instruction "vote"%string); vm_compute; reflexivity.
  - apply (H4 {| pd_programId := PublicKey "JUP4Fb2cqiRUcaTHdrPC8h2gNsA2ETXiPDD33WcGuJB";
                 accounts := []; data := "" |}); vm_compute; reflexivity.
Defined.

(** C7 as stated fails: a parsed instruction whose tag is not in the table
    is labelled with the raw tag although the descriptor has a default
    label, which the stated order puts first. *)
Lemma raw_tag_precedes_default_label :
  let p := vote_instruction in
  let descriptor := getProgramInfo (programId p) in
  own (instructions descriptor) "vote" = None
  /\ own (instructions descriptor) "default" = Some "Unknown Instruction"%string
  /\ label_by_spec descriptor (type (parsed p)) = "Unknown Instruction"%string
  /\ instructionName (parseInstructionDetail failing_world (IsParsed p) [])
     = JString "vote"
  /\ instructionName (parseInstructionDetail failing_world (IsParsed p) [])
     <> JString (label_by_spec descriptor (type (parsed p))).
Proof. vm_compute. repeat split. discriminate. Qed.

(** A parsed memo has no tag: its label is [undefined], not the default
    label "Add Memo" of its descriptor. *)
Lemma memo_label_is_undefined :
  instructionName (parseInstructionDetail failing_world (IsParsed memo_instruction) [])
  = JUndefined
  /\ label_by_spec (getProgramInfo (programId memo_instruction)) None
     = "Add Memo"%string.
Proof. vm_compute. split; reflexivity. Qed.

(** The helper [getInstructionName], which nothing calls, has its own
    order: table entry, raw tag, "Unknown Instruction"; it does not consult
    the default label either. *)
Lemma getInstructionName_order :
  getInstructionName TOKEN_PROGRAM (Some "transfer"%string) = JString "Transfer Tokens"
  /\ getInstructionName JUPITER (Some "route"%string) = JString "route"
  /\ getInstructionName JUPITER None = JString "Unknown Instruction".
Proof. vm_compute. repeat split. Qed.

(** ** The earlier variant *)

(** The earlier variant records a parsed system or token instruction in
    neither [actions] nor [otherInstructions]: its two lengths do not add
    up to the number of instructions. *)
Lemma legacy_variant_drops_transfers :
  let tx := {| tx_instructions := [IsParsed sol_transfer];
               tx_innerInstructions := None |} in
  exists r s,
    Legacy.classifyAndExtractInstructions failing_world tx initial = (Normal r, s)
    /\ Legacy.actions r = []
    /\ Legacy.otherInstructions r = []
    /\ length (Legacy.transfers r) = 1%nat.
Proof. vm_compute. eexists _, _. repeat split. Qed.

(** ** Further proofs: one turn of the loop, in full *)

Lemma push_if_counts o label r :
  map tokenType (transfers (push_if o label r))
  = map tokenType (transfers r)
    ++ match o with Some t => [tokenType t] | None => [] end
  /\ (length (types (push_if o label r)) + length (transfers r))%nat
     = (length (types r) + length (transfers (push_if o label r)))%nat.
Proof.
  destruct o; simpl.
  - rewrite map_app, !length_app. simpl. split; [reflexivity | lia].
  - rewrite app_nil_r. split; reflexivity.
Qed.

(** What a normal return of the [switch] tells: the instruction was
    readable, the transfers appended are those of its kind, each with one
    type label, and the metadata manager was used only for a token
    transfer. *)
Lemma extractTransfers_normal w i r s r' s' :
  extractTransfers w i r s = (Normal r', s') ->
  readable (IsParsed i) = true
  /\ map tokenType (transfers r')
     = map tokenType (transfers r) ++ transfer_kinds (IsParsed i)
  /\ (length (types r') + length (transfers r))%nat
     = (length (types r) + length (transfers r'))%nat
  /\ (is_token_transfer i = false -> s' = s).
Proof.
  unfold extractTransfers, readable, transfer_kinds, is_native_transfer,
    is_token_transfer.
  destruct (String.eqb (program i) "system") eqn:Es.
  - apply String.eqb_eq in Es. rewrite Es.
    change (String.eqb "system" "spl-token") with false. simpl andb.
    unfold parseSystemInstruction, info_of.
    destruct (type_is i "transfer" || type_is i "transferWithSeed").
    + destruct (info (parsed i)) as [inf |]; [| discriminate].
      unfold bind, of_completion, ret. intros H. inversion H; subst.
      destruct (push_if_counts (Some (native_transfer inf)) "Native Transfer" r)
        as (E1 & E2).
      split; [reflexivity |]. split; [exact E1 |]. split; [exact E2 | reflexivity].
    + unfold bind, of_completion, ret. intros H. inversion H; subst. simpl.
      rewrite app_nil_r. auto.
  - simpl andb. destruct (String.eqb (program i) "spl-token"); simpl andb.
    + unfold parseTokenTransfer, parseNFTTransfer, info_of.
      destruct (type_is i "transferChecked" || type_is i "transfer").
      * destruct (info (parsed i)) as [inf |] eqn:Ei; [| discriminate].
        unfold info_or_none. rewrite Ei.
        unfold bind at 1 2 3, of_completion at 1. rewrite lift_normal.
        unfold tokenTransferValue.
        set (md := fst (getTokenMetadata w (str_or (mint inf) (token inf)) "SPL" s)).
        set (s1 := snd (getTokenMetadata w (str_or (mint inf) (token inf)) "SPL" s)).
        assert (Hv : forall v,
          bind (bind (of_completion (Normal v))
                  (fun v0 => ret (Some (spl_transfer inf md v0))))
               (fun tokenTransfer =>
                  bind (bind (of_completion (Normal inf))
                          (fun i0 => if nft_shape i0
                             then bind (lift (getTokenMetadata w (mint i0) "NFT"))
                                    (fun tokenMetadata =>
                                       ret (Some (nft_transfer i0 tokenMetadata)))
                             else ret None))
                       (fun nftTransfer =>
                          ret (push_if nftTransfer "NFT Transfer"
                                 (push_if tokenTransfer "Token Transfer" r)))) s1
          = (Normal r', s') ->
          true = true
          /\ map tokenType (transfers r')
             = map tokenType (transfers r)
               ++ (if nft_shape inf then [SPL; NFT] else [SPL])
          /\ (length (types r') + length (transfers r))%nat
             = (length (types r) + length (transfers r'))%nat
          /\ (true = false -> s' = s)).
        { intros v. unfold bind at 1 2 3 4, of_completion, ret.
          destruct (nft_shape inf).
          - unfold bind. rewrite lift_normal. intros H. inversion H; subst. simpl.
            rewrite !map_app, !length_app. simpl. rewrite <- app_assoc. simpl.
            repeat split; [lia | discriminate].
          - intros H. inversion H; subst. simpl.
            rewrite map_app, !length_app. simpl.
            repeat split; [lia | discriminate]. }
        destruct (tokenAmount inf) as [ta |].
        -- destruct (ta_uiAmount ta) as [u |].
           ++ apply Hv.
           ++ unfold bind, of_completion. discriminate.
        -- destruct (ToBoolean (amount inf)); apply Hv.
      * unfold bind, ret. intros H. inversion H; subst. simpl.
        rewrite app_nil_r. auto.
    + unfold ret. intros H. inversion H; subst. rewrite app_nil_r. auto.
Qed.

Lemma processInstruction_normal w tx idx instruction r s r' s' :
  processInstruction w tx idx instruction r s = (Normal r', s') ->
  let d := parseInstructionDetail w instruction (innerDetails w tx idx) in
  readable instruction = true
  /\ actions r' = actions r ++ (if is_parsed instruction then [d] else [])
  /\ otherInstructions r'
     = otherInstructions r ++ (if is_parsed instruction then [] else [d])
  /\ map tokenType (transfers r')
     = map tokenType (transfers r) ++ transfer_kinds instruction
  /\ (length (types r') + length (transfers r))%nat
     = (length (types r) + length (transfers r') + 1)%nat
  /\ (touches_metadata instruction = false -> s' = s).
Proof.
  unfold processInstruction. destruct instruction as [i | i]; cbv zeta.
  - intros H. apply bind_normal in H as (r1 & s1 & H1 & H).
    pose proof (extractTransfers_frame _ _ _ _ _ _ H1) as (_ & Fa & Fo).
    apply extractTransfers_normal in H1 as (Hr & Hk & Hl & Hs).
    inversion H; subst. simpl in *. rewrite Fa, Fo, app_nil_r, length_app. simpl.
    repeat split; [exact Hr | exact Hk | lia | exact Hs].
  - intros H. inversion H; subst. simpl. rewrite !app_nil_r, length_app. simpl.
    repeat split; lia.
Qed.

(** The same for the whole loop. *)
Lemma processFrom_normal w tx rest : forall idx r s r' s',
  processFrom w tx idx rest r s = (Normal r', s') ->
  let ds := combine rest (detailsFrom w tx idx rest) in
  forallb readable rest = true
  /\ actions r'
     = actions r ++ map snd (List.filter (fun p => is_parsed (fst p)) ds)
  /\ otherInstructions r'
     = otherInstructions r
       ++ map snd (List.filter (fun p => negb (is_parsed (fst p))) ds)
  /\ map tokenType (transfers r')
     = map tokenType (transfers r) ++ flat_map transfer_kinds rest
  /\ (length (types r') + length (transfers r))%nat
     = (length (types r) + length (transfers r') + length rest)%nat
  /\ (forallb (fun i => negb (touches_metadata i)) rest = true -> s' = s).
Proof.
  induction rest as [| instruction rest IH]; intros idx r s r' s' H.
  - inversion H; subst. simpl. rewrite !app_nil_r. repeat split; lia.
  - simpl in H. apply bind_normal in H as (r1 & s1 & H1 & H).
    apply processInstruction_normal in H1 as (Er & Ea & Eo & Ek & El & Es).
    apply IH in H as (Fr & Fa & Fo & Fk & Fl & Fs).
    cbv zeta. simpl. rewrite Er, Fr, Fa, Fo, Fk, Ea, Eo, Ek.
    split; [reflexivity |].
    destruct (is_parsed instruction); simpl;
      rewrite <- ?app_assoc, ?app_nil_r; simpl;
      (repeat split; [lia |]);
      intros Hm; apply andb_prop in Hm as [Hm1 Hm2];
      apply negb_true_iff in Hm1; rewrite (Fs Hm2); apply Es; exact Hm1.
Qed.

(** ** Further properties of the instruction processor *)

Lemma innerDetails_of_position w tx idx :
  innerDetails w tx idx
  = map (fun innerIx => parseInstructionDetail w innerIx [])
        (inner_of_position tx idx).
Proof.
  unfold innerDetails, inner_of_position.
  destruct (tx_innerInstructions tx) as [sets |]; [| reflexivity].
  f_equal. induction sets as [| inner sets IH]; simpl; [reflexivity |].
  destruct (index inner =? idx)%nat; simpl; rewrite IH; reflexivity.
Qed.

(** Where the detail record of the instruction at a position sits among
    the records selected by [q]. *)
Lemma nth_filtered_details w tx (q : INSTRUCTION_TYPE -> bool) rest :
  forall base idx i,
    nth_error rest idx = Some i -> q i = true ->
    nth_error
      (map snd (List.filter (fun p => q (fst p))
                  (combine rest (detailsFrom w tx base rest))))
      (length (List.filter q (firstn idx rest)))
    = Some (parseInstructionDetail w i (innerDetails w tx (base + idx))).
Proof.
  induction rest as [| x rest IH]; intros base idx i Hn Hq.
  - destruct idx; discriminate Hn.
  - destruct idx as [| k]; simpl in Hn.
    + inversion Hn; subst x. simpl. rewrite Hq. simpl.
      rewrite Nat.add_0_r. reflexivity.
    + specialize (IH (S base) k i Hn Hq).
      replace (S base + k)%nat with (base + S k)%nat in IH by lia.
      simpl. destruct (q x); simpl; exact IH.
Qed.

(** X1. In a returned result the detail record of every top-level
    instruction sits in [actions] when the instruction is parsed and in
    [otherInstructions] when it is partially decoded, at the place the
    instruction has among the instructions of its shape. The record's
    inner instructions are the details of exactly the inner instructions
    whose entry has the [index] of the instruction's position, in order,
    each parsed with no children. *)
Theorem actions_are_the_parsed_details w tx s r s' :
  classifyAndExtractInstructions w tx s = (Normal r, s') ->
  forall idx instruction,
    nth_error (tx_instructions tx) idx = Some instruction ->
    let children :=
      map (fun innerIx => parseInstructionDetail w innerIx [])
          (flat_map (fun inner => if (index inner =? idx)%nat
                                  then inner_instructions inner else [])
                    (match tx_innerInstructions tx with
                     | Some sets => sets
                     | None => []
                     end)) in
    let d := parseInstructionDetail w instruction children in
    innerInstructions d = children
    /\ (is_parsed instruction = true ->
        nth_error (actions r)
          (length (List.filter is_parsed (firstn idx (tx_instructions tx))))
        = Some d)
    /\ (is_parsed instruction = false ->
        nth_error (otherInstructions r)
          (length (List.filter (fun i => negb (is_parsed i))
                     (firstn idx (tx_instructions tx))))
        = Some d).
Proof.
  intros H idx instruction Hn children d.
  apply processFrom_normal in H as (_ & Ha & Ho & _). simpl in Ha, Ho.
  assert (Hd : d = parseInstructionDetail w instruction (innerDetails w tx (0 + idx))).
  { unfold d, children. simpl. rewrite innerDetails_of_position. reflexivity. }
  split; [destruct instruction; reflexivity |]. split.
  - intros Hp. rewrite Ha, Hd.
    apply (nth_filtered_details w tx is_parsed _ 0%nat idx instruction Hn Hp).
  - intros Hp. rewrite Ho, Hd.
    apply (nth_filtered_details w tx (fun i => negb (is_parsed i)) _ 0%nat idx
             instruction Hn).
    rewrite Hp. reflexivity.
Qed.

Lemma actions_are_the_parsed_details_witness :
  let r := result_of (classifyAndExtractInstructions failing_world
                        mixed_transaction initial) in
  (exists d, nth_error (actions r) 0 = Some d
             /\ programName d = "System Program"%string
             /\ innerInstructions d = [])
  /\ (exists d, nth_error (otherInstructions r) 0 = Some d
                /\ map programName (innerInstructions d)
                   = ["System Program"%string]).
Proof.
  intros r.
  pose proof (actions_are_the_parsed_details failing_world mixed_transaction initial r
                (snd (classifyAndExtractInstructions failing_world
                        mixed_transaction initial))) as T.
  assert (Hrun : classifyAndExtractInstructions failing_world mixed_transaction initial
                 = (Normal r,
                    snd (classifyAndExtractInstructions failing_world
                           mixed_transaction initial)))
    by (vm_compute; reflexivity).
  split.
  - destruct (T Hrun 0%nat (IsParsed sol_transfer) eq_refl) as (Hc & Hp & _).
    eexists. split; [apply Hp; reflexivity |]. split; reflexivity.
  - destruct (T Hrun 1%nat (opaque "JUP4Fb2cqiRUcaTHdrPC8h2gNsA2ETXiPDD33WcGuJB")
                eq_refl) as (Hc & _ & Ho).
    eexists. split; [apply Ho; reflexivity |]. reflexivity.
Defined.

Lemma parseInstructionDetail_ext w1 w2 instruction inner :
  (forall d, bs58_utf8 w1 d = bs58_utf8 w2 d) ->
  parseInstructionDetail w1 instruction inner
  = parseInstructionDetail w2 instruction inner.
Proof.
  intros E. destruct instruction as [i | i]; simpl; [reflexivity |].
  unfold decodeInstructionData. rewrite E. reflexivity.
Qed.

Lemma innerDetails_ext w1 w2 tx idx :
  (forall d, bs58_utf8 w1 d = bs58_utf8 w2 d) ->
  innerDetails w1 tx idx = innerDetails w2 tx idx.
Proof.
  intros E. unfold innerDetails. destruct (tx_innerInstructions tx); [| reflexivity].
  apply map_ext. intros ix. apply parseInstructionDetail_ext. exact E.
Qed.

Lemma detailsFrom_ext w1 w2 tx rest : forall idx,
  (forall d, bs58_utf8 w1 d = bs58_utf8 w2 d) ->
  detailsFrom w1 tx idx rest = detailsFrom w2 tx idx rest.
Proof.
  induction rest as [| i rest IH]; intros idx E; simpl; [reflexivity |].
  rewrite (innerDetails_ext w1 w2 tx idx E), (parseInstructionDetail_ext w1 w2 _ _ E),
    (IH (S idx) E). reflexivity.
Qed.

(** X2. The classification does not depend on the metadata source: two
    runs on the same transaction, with any clocks, lookup answers and cache
    contents, return the same [programInteractions], [actions] and
    [otherInstructions] and transfers of the same kinds in the same order,
    provided the payload decoder is the same. *)
Theorem classification_ignores_metadata w1 w2 tx s1 s2 r1 r2 s1' s2' :
  (forall d, bs58_utf8 w1 d = bs58_utf8 w2 d) ->
  classifyAndExtractInstructions w1 tx s1 = (Normal r1, s1') ->
  classifyAndExtractInstructions w2 tx s2 = (Normal r2, s2') ->
  programInteractions r1 = programInteractions r2
  /\ actions r1 = actions r2
  /\ otherInstructions r1 = otherInstructions r2
  /\ map tokenType (transfers r1) = map tokenType (transfers r2).
Proof.
  intros E H1 H2.
  pose proof (processFrom_effect _ _ _ _ _ _ _ _ H1) as (P1 & _).
  pose proof (processFrom_effect _ _ _ _ _ _ _ _ H2) as (P2 & _).
  apply processFrom_normal in H1 as (_ & A1 & O1 & K1 & _).
  apply processFrom_normal in H2 as (_ & A2 & O2 & K2 & _).
  rewrite P1, P2, A1, A2, O1, O2, K1, K2.
  rewrite (detailsFrom_ext w1 w2 tx _ 0%nat E). auto.
Qed.

Lemma classification_ignores_metadata_witness :
  let r1 := result_of (classifyAndExtractInstructions failing_world
                         mixed_transaction initial) in
  let r2 := result_of (classifyAndExtractInstructions (resolving_world 0)
                         mixed_transaction initial) in
  actions r1 = actions r2
  /\ map tokenType (transfers r1) = map tokenType (transfers r2).
Proof.
  intros r1 r2.
  destruct (classification_ignores_metadata failing_world (resolving_world 0)
              mixed_transaction initial initial r1 r2
              (snd (classifyAndExtractInstructions failing_world
                      mixed_transaction initial))
              (snd (classifyAndExtractInstructions (resolving_world 0)
                      mixed_transaction initial)))
    as (_ & Ha & _ & Hk);
    [reflexivity | vm_compute; reflexivity | vm_compute; reflexivity |].
  split; [exact Ha | exact Hk].
Defined.

Lemma innerDetails_childless w tx idx c :
  In c (innerDetails w tx idx) -> innerInstructions c = [].
Proof.
  unfold innerDetails. destruct (tx_innerInstructions tx); [| intros []].
  rewrite in_map_iff. intros (ix & <- & _). destruct ix; reflexivity.
Qed.

Lemma detailsFrom_children w tx rest : forall idx d,
  In d (detailsFrom w tx idx rest) ->
  exists i k, d = parseInstructionDetail w i (innerDetails w tx k).
Proof.
  induction rest as [| i rest IH]; intros idx d; simpl; [intros [] |].
  intros [<- | H]; [eauto | eapply IH; exact H].
Qed.

(** X3. Nesting stops at one level: in a returned result every detail
    record's inner instructions have no inner instructions of their own. *)
Theorem inner_instructions_are_childless w tx s r s' :
  classifyAndExtractInstructions w tx s = (Normal r, s') ->
  forall d, In d (actions r ++ otherInstructions r) ->
  forall c, In c (innerInstructions d) -> innerInstructions c = [].
Proof.
  intros H d Hd c Hc.
  apply processFrom_normal in H as (_ & Ha & Ho & _). simpl in Ha, Ho.
  assert (Hin : In d (detailsFrom w tx 0 (tx_instructions tx))).
  { apply in_app_or in Hd as [Hd | Hd]; [rewrite Ha in Hd | rewrite Ho in Hd];
      apply in_map_iff in Hd as ([i d'] & <- & Hf);
      apply filter_In in Hf as [Hf _]; apply in_combine_r in Hf; exact Hf. }
  apply detailsFrom_children in Hin as (i & k & ->).
  apply (innerDetails_childless w tx k).
  destruct i; exact Hc.
Qed.

Lemma inner_instructions_are_childless_witness :
  let r := result_of (classifyAndExtractInstructions failing_world
                        mixed_transaction initial) in
  exists d c,
    otherInstructions r = [d] /\ innerInstructions d = [c]
    /\ innerInstructions c = [].
Proof.
  intros r.
  destruct (otherInstructions r) as [| d [| d' l]] eqn:Ho;
    [vm_compute in Ho; discriminate Ho | | vm_compute in Ho; discriminate Ho].
  destruct (innerInstructions d) as [| c [| c' l]] eqn:Hc;
    [vm_compute in Ho; injection Ho as <-; vm_compute in Hc; discriminate Hc
    | | vm_compute in Ho; injection Ho as <-; vm_compute in Hc; discriminate Hc].
  exists d, c. split; [reflexivity |]. split; [exact Hc |].
  apply (inner_instructions_are_childless failing_world mixed_transaction initial r
           (snd (classifyAndExtractInstructions failing_world
                   mixed_transaction initial))) with (d := d).
  - vm_compute. reflexivity.
  - apply in_or_app. right. rewrite Ho. left. reflexivity.
  - rewrite Hc. left. reflexivity.
Defined.

(** X4. In a returned result [types] has one label for every top-level
    instruction and one more for every transfer. *)
Theorem one_type_per_instruction_and_transfer w tx s r s' :
  classifyAndExtractInstructions w tx s = (Normal r, s') ->
  length (types r)
  = (length (tx_instructions tx) + length (transfers r))%nat.
Proof.
  intros H. apply processFrom_normal in H as (_ & _ & _ & _ & Hl & _).
  simpl in Hl. lia.
Qed.

Lemma one_type_per_instruction_and_transfer_witness :
  let r := result_of (classifyAndExtractInstructions failing_world
                        mixed_transaction initial) in
  length (types r) = 6%nat /\ length (transfers r) = 3%nat.
Proof.
  intros r.
  pose proof (one_type_per_instruction_and_transfer failing_world mixed_transaction
                initial r
                (snd (classifyAndExtractInstructions failing_world
                        mixed_transaction initial))) as H.
  assert (Ht : length (transfers r) = 3%nat) by (vm_compute; reflexivity).
  split; [| exact Ht]. rewrite H; [rewrite Ht; reflexivity | vm_compute; reflexivity].
Defined.

(** X5. In a returned result the transfers are, in instruction order: one
    Native transfer for every parsed system instruction tagged [transfer]
    or [transferWithSeed]; one SPL transfer for every parsed token
    instruction tagged [transfer] or [transferChecked], followed by one NFT
    transfer when its token amount has zero decimals and display amount 1;
    nothing for any other instruction. *)
Theorem transfers_by_kind w tx s r s' :
  classifyAndExtractInstructions w tx s = (Normal r, s') ->
  map tokenType (transfers r) = flat_map transfer_kinds (tx_instructions tx).
Proof.
  intros H. apply processFrom_normal in H as (_ & _ & _ & Hk & _). exact Hk.
Qed.

Lemma transfers_by_kind_witness :
  map tokenType
    (transfers (result_of (classifyAndExtractInstructions failing_world
                             mixed_transaction initial)))
  = [Native; SPL; NFT].
Proof.
  rewrite (transfers_by_kind failing_world mixed_transaction initial _
             (snd (classifyAndExtractInstructions failing_world
                     mixed_transaction initial))).
  - reflexivity.
  - vm_compute. reflexivity.
Defined.

(** X6. The interpreter throws exactly when some instruction is not
    readable: a parsed system or token instruction with a transfer tag and
    no [info], or a token transfer whose token amount object has a null
    display amount. On every other transaction it returns a result. *)
Theorem returns_iff_readable w tx s :
  (exists r s', classifyAndExtractInstructions w tx s = (Normal r, s'))
  <-> forallb readable (tx_instructions tx) = true.
Proof.
  split.
  - intros (r & s' & H). apply processFrom_normal in H as (Hr & _). exact Hr.
  - apply classifyAndExtractInstructions_returns.
Qed.

Lemma returns_iff_readable_witness :
  exists r s',
    classifyAndExtractInstructions failing_world mixed_transaction initial
    = (Normal r, s').
Proof.
  apply (proj2 (returns_iff_readable failing_world mixed_transaction initial)).
  reflexivity.
Defined.

(** X7. A transaction without a token transfer instruction leaves the
    metadata manager alone: no cache entry is added, no lookup is made and
    the clock is not read. *)
Theorem metadata_untouched_without_token_transfer w tx s r s' :
  forallb (fun i => negb (touches_metadata i)) (tx_instructions tx) = true ->
  classifyAndExtractInstructions w tx s = (Normal r, s') ->
  s' = s.
Proof.
  intros Hm H. apply processFrom_normal in H as (_ & _ & _ & _ & _ & Hs).
  apply Hs. exact Hm.
Qed.

Lemma metadata_untouched_without_token_transfer_witness :
  snd (classifyAndExtractInstructions (resolving_world 2)
         {| tx_instructions :=
              [IsParsed sol_transfer; IsParsed vote_instruction; opaque "A"];
            tx_innerInstructions := None |} initial)
  = initial.
Proof.
  apply (metadata_untouched_without_token_transfer (resolving_world 2)
           {| tx_instructions :=
                [IsParsed sol_transfer; IsParsed vote_instruction; opaque "A"];
              tx_innerInstructions := None |} initial
           (result_of (classifyAndExtractInstructions (resolving_world 2)
              {| tx_instructions :=
                   [IsParsed sol_transfer; IsParsed vote_instruction; opaque "A"];
                 tx_innerInstructions := None |} initial))).
  - reflexivity.
  - vm_compute. reflexivity.
Defined.

(** ** Further properties of the metadata manager *)

Section OneResolution.

Variable w : World.
Variable a : option string.
Variable t : string.

(** A successful fetch, field by field. *)
Lemma fetch_success_fields s mi :
  mint_answer w a s = Some mi ->
  exists md s3,
    fetch w a t s = (Normal md, cache_set (cacheKey a t) md s3)
    /\ md_error md = None
    /\ (exists ts, md_timestamp md = Some ts)
    /\ md_address md = a /\ md_type md = t
    /\ md_decimals md = mint_decimals mi
    /\ md_supply md = mint_supply mi
    /\ md_isNFT md = (if String.eqb t "NFT" then Some (looks_like_nft mi) else None)
    /\ metadataCache s3 = metadataCache s
    /\ metaplexLookups s3
       = metaplexLookups s
         ++ (if String.eqb t "NFT" || String.eqb t "SPL" then [a] else []).
Proof.
  unfold mint_answer, fetch, bind, now, getMintInfo, getMetaplexMetadata, ret.
  simpl. destruct a as [x |]; [| discriminate]. intros ->.
  destruct (String.eqb t "NFT") eqn:En; simpl.
  - destruct (getMetaplexAccount w (S (S (tick s))) x);
      eexists _, _; (split; [reflexivity |]); simpl; repeat split; eauto.
  - destruct (String.eqb t "SPL"); simpl.
    + destruct (getMetaplexAccount w (S (S (tick s))) x);
        eexists _, _; (split; [reflexivity |]); simpl; repeat split; eauto.
    + eexists _, _; (split; [reflexivity |]); simpl; rewrite ?app_nil_r;
        repeat split; eauto.
Qed.

(** What one resolution does to the cache and to the Metaplex log. *)
Lemma getTokenMetadata_changes s md s1 :
  getTokenMetadata w a t s = (md, s1) ->
  (metadataCache s1 = metadataCache s /\ metaplexLookups s1 = metaplexLookups s)
  \/ (cached_fresh w a t s = false
      /\ metadataCache s1 = <[cacheKey a t := md]> (metadataCache s)
      /\ md_error md = None
      /\ (exists ts, md_timestamp md = Some ts)
      /\ md_address md = a /\ md_type md = t
      /\ metaplexLookups s1
         = metaplexLookups s
           ++ (if String.eqb t "NFT" || String.eqb t "SPL" then [a] else [])).
Proof.
  intros H. destruct (cached_fresh w a t s) eqn:Hf.
  - left. apply getTokenMetadata_outcome in H
      as [(_ & _ & Hc & _ & Hm & _) | (Hf' & _)]; [auto | congruence].
  - destruct (getTokenMetadata_miss w a t s Hf) as (s0 & E & Hc & _ & Hm).
    rewrite E in H. unfold try_catch in H.
    destruct (mint_answer w a s0) as [mi |] eqn:Ha.
    + right.
      destruct (fetch_success_fields s0 mi Ha)
        as (md' & s3 & E' & He & Hts & Haddr & Hty & _ & _ & _ & Hc3 & Hm3).
      rewrite E' in H. inversion H; subst md' s1. simpl.
      rewrite Hc3, Hc, Hm3, Hm. repeat split; auto.
    + left. rewrite (fetch_failure w a t s0 Ha) in H. inversion H; subst. simpl.
      split; [exact Hc | exact Hm].
Qed.

End OneResolution.

(** X8. The cache only ever holds records of successful fetches: if every
    entry carries no error mark, has a fetch time and sits under the key
    of its own address and kind, the same is true after any resolution and
    after [clearCache]; the empty cache is such a cache. *)
Theorem cache_stays_sound w a t s :
  cache_sound s ->
  cache_sound (snd (getTokenMetadata w a t s))
  /\ cache_sound (clearCache s)
  /\ cache_sound initial.
Proof.
  intros Hs. split; [| split].
  - destruct (getTokenMetadata w a t s) as [md s1] eqn:E. simpl.
    apply getTokenMetadata_changes in E
      as [(Hc & _) | (_ & Hc & He & Hts & Ha & Ht & _)];
      intros k m; rewrite Hc; [apply Hs |].
    rewrite lookup_insert. destruct (decide (cacheKey a t = k)) as [<- | _].
    + intros Hm. inversion Hm; subst m. rewrite Ha, Ht. auto.
    + apply Hs.
  - intros k m. simpl. rewrite lookup_empty. discriminate.
  - intros k m. simpl. rewrite lookup_empty. discriminate.
Qed.

Lemma cache_stays_sound_witness :
  cache_sound (snd (getTokenMetadata (resolving_world 2) (Some "MintM"%string)
                      "SPL" initial)).
Proof.
  apply (cache_stays_sound (resolving_world 2) (Some "MintM"%string) "SPL" initial).
  intros k m. simpl. rewrite lookup_empty. discriminate.
Defined.

(** X9. A resolution writes at most the slot of its own key: every other
    key holds after it what it held before. *)
Theorem other_slots_untouched w a t s k :
  k <> cacheKey a t ->
  metadataCache (snd (getTokenMetadata w a t s)) !! k = metadataCache s !! k.
Proof.
  intros Hk. destruct (getTokenMetadata w a t s) as [md s1] eqn:E. simpl.
  apply getTokenMetadata_changes in E as [(Hc & _) | (_ & Hc & _)]; rewrite Hc.
  - reflexivity.
  - apply lookup_insert_ne. congruence.
Qed.

Lemma other_slots_untouched_witness :
  let s1 := snd (getTokenMetadata (resolving_world 2) (Some "MintM"%string)
                   "SPL" initial) in
  let s2 := snd (getTokenMetadata (resolving_world 0) (Some "MintM"%string)
                   "NFT" s1) in
  metadataCache s2 !! "MintM-SPL"%string = metadataCache s1 !! "MintM-SPL"%string.
Proof.
  intros s1 s2.
  apply (other_slots_untouched (resolving_world 0) (Some "MintM"%string) "NFT" s1).
  vm_compute. discriminate.
Defined.

Lemma hyphen_inside u v : hyphen_free (u ++ String "-" v)%string = false.
Proof.
  induction u as [| c u IH]; simpl; [reflexivity |].
  rewrite IH. apply andb_false_r.
Qed.

Lemma split_at_last_hyphen u : forall u' v v',
  (u ++ String "-" v)%string = (u' ++ String "-" v')%string ->
  hyphen_free v = true -> hyphen_free v' = true ->
  u = u' /\ v = v'.
Proof.
  induction u as [| c u IH]; intros [| c' u'] v v' E Hv Hv'; simpl in E.
  - inversion E. auto.
  - inversion E; subst. rewrite hyphen_inside in Hv. discriminate Hv.
  - inversion E; subst. rewrite hyphen_inside in Hv'. discriminate Hv'.
  - inversion E; subst. destruct (IH u' v v' H1 Hv Hv') as [-> ->]. auto.
Qed.

(** X10. Two requests whose kinds contain no hyphen share a cache key only
    if they have the same kind and addresses that print alike; so the
    kinds 'SPL' and 'NFT' of one address have separate slots. *)
Theorem cacheKey_separates a t a' t' :
  hyphen_free t = true -> hyphen_free t' = true ->
  cacheKey a t = cacheKey a' t' ->
  template a = template a' /\ t = t'.
Proof.
  intros Ht Ht' E. unfold cacheKey in E.
  exact (split_at_last_hyphen _ _ _ _ E Ht Ht').
Qed.

Lemma cacheKey_separates_witness :
  cacheKey (Some "MintM"%string) "SPL" <> cacheKey (Some "MintM"%string) "NFT".
Proof.
  intros E.
  destruct (cacheKey_separates (Some "MintM"%string) "SPL"
              (Some "MintM"%string) "NFT" eq_refl eq_refl E) as [_ H].
  discriminate H.
Defined.

(** X11. After [clearCache] every resolution looks the mint up again,
    whatever was cached before. *)
Theorem clearCache_forces_lookup w a t s :
  mintLookups (snd (getTokenMetadata w a t (clearCache s))) = mintLookups s ++ [a]
  /\ metadataCache (clearCache s) = ∅.
Proof.
  split; [| reflexivity].
  destruct (getTokenMetadata w a t (clearCache s)) as [md s1] eqn:E. simpl.
  apply getTokenMetadata_outcome in E as [(Hf & _) | (_ & Hl & _)]; [| exact Hl].
  unfold cached_fresh in Hf. simpl in Hf. rewrite lookup_empty in Hf.
  discriminate Hf.
Qed.

(** X12. The Metaplex account is read at most once per resolution, and
    only when the record is fetched anew, the mint lookup has succeeded
    and the kind is 'NFT' or 'SPL'; a cache hit and a failed resolution
    read nothing from it. *)
Theorem metaplex_read_only_after_mint w a t s md s1 :
  getTokenMetadata w a t s = (md, s1) ->
  (metaplexLookups s1 = metaplexLookups s
   \/ (metaplexLookups s1 = metaplexLookups s ++ [a]
       /\ cached_fresh w a t s = false
       /\ md_error md = None
       /\ (t = "NFT" \/ t = "SPL")%string))
  /\ (md_error md <> None -> metaplexLookups s1 = metaplexLookups s).
Proof.
  intros H.
  apply getTokenMetadata_changes in H as [(_ & Hm) | (Hf & _ & He & _ & _ & _ & Hm)].
  - split; [left; exact Hm | intros _; exact Hm].
  - split; [| intros Hne; congruence].
    destruct (String.eqb_spec t "NFT") as [-> | _]; simpl in Hm.
    + right. auto.
    + destruct (String.eqb_spec t "SPL") as [-> | _]; simpl in Hm.
      * right. auto.
      * left. rewrite Hm. apply app_nil_r.
Qed.

Lemma metaplex_read_only_after_mint_witness :
  metaplexLookups (snd (getTokenMetadata failing_world (Some "MintM"%string)
                          "NFT" initial)) = [].
Proof.
  set (run := getTokenMetadata failing_world (Some "MintM"%string) "NFT" initial).
  apply (proj2 (metaplex_read_only_after_mint failing_world (Some "MintM"%string)
                  "NFT" initial (fst run) (snd run) eq_refl)).
  vm_compute. discriminate.
Defined.

(** X13. A record fetched anew copies decimals and supply from the mint
    answer; its NFT flag is set only for kind 'NFT', and is true exactly
    when the mint has zero decimals and the supply string '1'. *)
Theorem fetched_record_reflects_mint w a t s mi :
  metadataCache s !! cacheKey a t = None ->
  mint_answer w a s = Some mi ->
  let md := fst (getTokenMetadata w a t s) in
  md_decimals md = mint_decimals mi
  /\ md_supply md = mint_supply mi
  /\ (t = "NFT"%string ->
      (md_isNFT md = Some true
       <-> mint_decimals mi = Some 0%N /\ mint_supply mi = Some "1"%string)
      /\ md_isNFT md <> None)
  /\ (t <> "NFT"%string -> md_isNFT md = None).
Proof.
  intros Hc Ha md.
  assert (E : getTokenMetadata w a t s
              = try_catch (fetch w a t) (fun _ s => (failure a t, s)) s).
  { unfold getTokenMetadata, try_catch, lookup_or_fetch. rewrite Hc. reflexivity. }
  destruct (fetch_success_fields w a t s mi Ha)
    as (md' & s3 & E' & _ & _ & _ & _ & Hd & Hsup & Hn & _).
  assert (Hmd : md = md').
  { unfold md. rewrite E. unfold try_catch. rewrite E'. reflexivity. }
  rewrite Hmd, Hd, Hsup, Hn. split; [reflexivity |]. split; [reflexivity |].
  split.
  - intros ->. simpl. split; [| discriminate].
    unfold looks_like_nft.
    destruct (mint_decimals mi) as [d |]; [| split; [discriminate | intros [? _]; discriminate]].
    destruct (mint_supply mi) as [sup |]; [| split; [discriminate | intros [_ ?]; discriminate]].
    split.
    + intros H. inversion H as [H1]. apply andb_prop in H1 as [Hd0 Hs1].
      apply N.eqb_eq in Hd0. apply String.eqb_eq in Hs1. subst. auto.
    + intros [H1 H2]. inversion H1; inversion H2; subst. reflexivity.
  - intros Hne. destruct (String.eqb_spec t "NFT"); [contradiction | reflexivity].
Qed.

Lemma fetched_record_reflects_mint_witness :
  let md := fst (getTokenMetadata (resolving_world 2) (Some "MintM"%string)
                   "SPL" initial) in
  md_decimals md = Some 2%N /\ md_isNFT md = None.
Proof.
  intros md.
  destruct (fetched_record_reflects_mint (resolving_world 2) (Some "MintM"%string)
              "SPL" initial
              {| mint_decimals := Some 2%N; mint_supply := Some "1000"%string;
                 mint_isInitialized := Some true |})
    as (Hd & _ & _ & Hn); [reflexivity | reflexivity |].
  split; [exact Hd | apply Hn; discriminate].
Defined.

(** ** Further properties of the registry *)

Lemma existsb_false_find {A} (f : A -> bool) (l : list A) :
  existsb f l = false -> find f l = None.
Proof.
  induction l as [| x l IH]; simpl; [reflexivity |].
  destruct (f x); [discriminate | exact IH].
Qed.

Lemma fold_insert_find (l : list ProgramInfo) :
  forall (m : gmap string ProgramInfo) k,
    ids_distinct l = true ->
    fold_left (fun m p => <[template (id p) := p]> m) l m !! k
    = match find (has_id k) l with
      | Some p => Some p
      | None => m !! k
      end.
Proof.
  induction l as [| q l IH]; intros m k Hd; simpl in *; [reflexivity |].
  unfold has_id at 1. destruct (id q) as [i |] eqn:Ei; [| discriminate Hd].
  apply andb_prop in Hd as [Hq Hl]. apply negb_true_iff in Hq.
  rewrite (IH _ k Hl). simpl.
  destruct (String.eqb_spec i k) as [<- | Hne].
  - assert (Hn : find (has_id i) l = None)
      by (apply existsb_false_find; exact Hq).
    rewrite Hn. apply lookup_insert_eq.
  - destruct (find (has_id k) l); [reflexivity |].
    apply lookup_insert_ne. exact Hne.
Qed.

Lemma known_ids_distinct : ids_distinct KNOWN_PROGRAMS = true.
Proof. vm_compute. reflexivity. Qed.

(** The map built from the registry answers as the linear search does. *)
Lemma PROGRAM_ID_MAP_is_find k : PROGRAM_ID_MAP !! k = findKnownProgram k.
Proof.
  unfold PROGRAM_ID_MAP. rewrite (fold_insert_find _ _ k known_ids_distinct).
  unfold findKnownProgram. fold (has_id k).
  destruct (find (has_id k) KNOWN_PROGRAMS); [reflexivity | apply lookup_empty].
Qed.

(** X14. [getProgramInfo] never fails and agrees with [findKnownProgram]:
    it returns the registry entry the linear search finds, and the made-up
    descriptor when there is none. Every registry entry is returned for
    its own id. *)
Theorem getProgramInfo_agrees_with_search programId :
  getProgramInfo programId
  = match findKnownProgram (toBase58_or_toString programId) with
    | Some p => p
    | None => unknown_program (toBase58_or_toString programId)
    end
  /\ (forall p i, In p KNOWN_PROGRAMS -> id p = Some i ->
      getProgramInfo (PublicKey i) = p).
Proof.
  split.
  - unfold getProgramInfo. rewrite PROGRAM_ID_MAP_is_find.
    destruct (findKnownProgram (toBase58_or_toString programId)); reflexivity.
  - intros p i Hp Hi. unfold getProgramInfo. rewrite PROGRAM_ID_MAP_is_find.
    simpl toBase58_or_toString.
    simpl in Hp.
    repeat (destruct Hp as [<- | Hp];
            [inversion Hi; subst i; vm_compute; reflexivity |]).
    destruct Hp.
Qed.

Lemma getProgramInfo_agrees_with_search_witness :
  getProgramInfo (PublicKey "JUP4Fb2cqiRUcaTHdrPC8h2gNsA2ETXiPDD33WcGuJB") = JUPITER.
Proof.
  apply (proj2 (getProgramInfo_agrees_with_search (PlainText ""))).
  - vm_compute. tauto.
  - reflexivity.
Defined.

(** X15. An address the registry does not list degrades instead of
    failing: the detail record of its instruction is named
    "Unknown Program (<address>)", and a partially decoded instruction of
    it is labelled "Unknown Instruction". *)
Theorem unknown_program_is_named w programAddress inner :
  findKnownProgram programAddress = None ->
  (forall accts payload,
     let d := parseInstructionDetail w (opaque_of programAddress accts payload)
                inner in
     programName d = ("Unknown Program (" ++ programAddress ++ ")")%string
     /\ instructionName d = JString "Unknown Instruction")
  /\ (forall prog p,
        programName
          (parseInstructionDetail w
             (IsParsed {| program := prog; programId := PublicKey programAddress;
                          parsed := p |}) inner)
        = ("Unknown Program (" ++ programAddress ++ ")")%string).
Proof.
  intros Hf.
  assert (E : getProgramInfo (PublicKey programAddress)
              = unknown_program programAddress).
  { unfold getProgramInfo. rewrite PROGRAM_ID_MAP_is_find. simpl. rewrite Hf.
    reflexivity. }
  split.
  - intros accts payload. simpl. rewrite E. simpl. split; reflexivity.
  - intros prog p. simpl. rewrite E. reflexivity.
Qed.

Lemma unknown_program_is_named_witness :
  programName (parseInstructionDetail failing_world (IsParsed vote_instruction) [])
  = "Unknown Program (Vote111111111111111111111111111111111111111)"%string.
Proof.
  apply (proj2 (unknown_program_is_named failing_world
                  "Vote111111111111111111111111111111111111111" [] eq_refl)).
Defined.

(** ** Further properties of the earlier variant *)

Lemma legacy_push_if_frame o label r :
  Legacy.actions (Legacy.push_if o label r) = Legacy.actions r
  /\ Legacy.otherInstructions (Legacy.push_if o label r)
     = Legacy.otherInstructions r.
Proof. destruct o; simpl; auto. Qed.

Ltac strip_push_if :=
  repeat match goal with
         | |- context [Legacy.push_if ?o ?l ?r0] =>
             let Ea := fresh "Ea" in
             let Eo := fresh "Eo" in
             destruct (legacy_push_if_frame o l r0) as (Ea & Eo);
             rewrite ?Ea, ?Eo; clear Ea Eo
         end.

Lemma legacy_processInstruction_effect w instruction r s r' s' :
  Legacy.processInstruction w instruction r s = (Normal r', s') ->
  (length (Legacy.actions r') + length (Legacy.otherInstructions r'))%nat
  = (length (Legacy.actions r) + length (Legacy.otherInstructions r)
     + if legacy_recorded instruction then 1 else 0)%nat.
Proof.
  unfold Legacy.processInstruction, legacy_recorded.
  destruct instruction as [i | i].
  - destruct (String.eqb (program i) "system"); simpl orb.
    + intros H. apply bind_normal in H as (t & s1 & _ & H). inversion H; subst.
      strip_push_if. simpl. lia.
    + destruct (String.eqb (program i) "spl-token"); simpl negb.
      * intros H. apply bind_normal in H as (t & s1 & _ & H).
        apply bind_normal in H as (n & s2 & _ & H). inversion H; subst.
        strip_push_if. simpl. lia.
      * intros H. inversion H; subst. simpl. rewrite length_app. simpl. lia.
  - intros H. inversion H; subst. simpl. rewrite length_app. simpl. lia.
Qed.

(** X16. The earlier variant records an instruction in [actions] or
    [otherInstructions] unless it is a parsed instruction of the system or
    token program: in a returned result the two lengths add up to the
    number of the other instructions. *)
Theorem legacy_partition w tx s r s' :
  Legacy.classifyAndExtractInstructions w tx s = (Normal r, s') ->
  (length (Legacy.actions r) + length (Legacy.otherInstructions r))%nat
  = length (List.filter legacy_recorded (tx_instructions tx)).
Proof.
  unfold Legacy.classifyAndExtractInstructions.
  assert (G : forall rest r0 s0,
    Legacy.processAll w rest r0 s0 = (Normal r, s') ->
    (length (Legacy.actions r) + length (Legacy.otherInstructions r))%nat
    = (length (Legacy.actions r0) + length (Legacy.otherInstructions r0)
       + length (List.filter legacy_recorded rest))%nat).
  { induction rest as [| i rest IH]; intros r0 s0 H.
    - inversion H; subst. simpl. lia.
    - simpl in H. apply bind_normal in H as (r1 & s1 & H1 & H).
      apply legacy_processInstruction_effect in H1. apply IH in H.
      simpl. destruct (legacy_recorded i); simpl; lia. }
  intros H. apply G in H. simpl in H. exact H.
Qed.

Lemma legacy_partition_witness :
  let run := Legacy.classifyAndExtractInstructions failing_world
               mixed_transaction initial in
  exists r, fst run = Normal r
            /\ (length (Legacy.actions r)
                + length (Legacy.otherInstructions r))%nat = 1%nat.
Proof.
  intros run.
  destruct run as [[r | e] s1] eqn:E; [| vm_compute in E; discriminate E].
  exists r. split; [reflexivity |].
  apply (legacy_partition failing_world mixed_transaction initial r s1 E).
Defined.

(** ** Properties of the scoring in route.ts *)

(** X17. The complexity category never goes down when an analysis gains
    transfers, interactions, security entries or action types. *)
Theorem complexity_is_monotone a b :
  (length (an_transfers a) <= length (an_transfers b))%nat ->
  (length (interactions a) <= length (interactions b))%nat ->
  (length (securityInfo a) <= length (securityInfo b))%nat ->
  (length (actionTypes a) <= length (actionTypes b))%nat ->
  (complexity_rank (calculateComplexityScore a)
   <= complexity_rank (calculateComplexityScore b))%nat.
Proof.
  intros Ht Hi Hs Ha.
  assert (Hp : (complexity_points a <= complexity_points b)%nat).
  { unfold complexity_points.
    destruct (Nat.ltb_spec 1 (length (actionTypes a)));
      destruct (Nat.ltb_spec 1 (length (actionTypes b))); lia. }
  unfold calculateComplexityScore. cbv zeta.
  destruct (Nat.leb_spec (complexity_points a) 5);
    destruct (Nat.leb_spec (complexity_points b) 5);
    destruct (Nat.leb_spec (complexity_points a) 15);
    destruct (Nat.leb_spec (complexity_points b) 15);
    destruct (Nat.leb_spec (complexity_points a) 30);
    destruct (Nat.leb_spec (complexity_points b) 30);
    try lia; vm_compute; lia.
Qed.

Lemma complexity_is_monotone_witness :
  (complexity_rank (calculateComplexityScore empty_analysis)
   <= complexity_rank
        (calculateComplexityScore
           (addExtracted empty_analysis
              (result_of (classifyAndExtractInstructions failing_world
                            mixed_transaction initial)))))%nat.
Proof.
  apply complexity_is_monotone; vm_compute; lia.
Defined.

(** X18. The risk level is 'Low' exactly when none of the five conditions
    holds: more than three interactions, an action type 'Swap', a security
    entry of type 'Warning', more than five transfers, more than one action
    type. A warning together with more than one action type gives
    'High'. *)
Theorem risk_level_conditions a :
  (calculateRiskLevel a = "Low"%string
   <-> (length (interactions a) <= 3)%nat
       /\ includes_text "Swap" (actionTypes a) = false
       /\ has_warning a = false
       /\ (length (an_transfers a) <= 5)%nat
       /\ (length (actionTypes a) <= 1)%nat)
  /\ (has_warning a = true -> (1 < length (actionTypes a))%nat ->
      calculateRiskLevel a = "High"%string).
Proof.
  unfold calculateRiskLevel, risk_factors, has_warning. cbv zeta.
  destruct (Nat.ltb_spec 3 (length (interactions a)));
    destruct (includes_text "Swap" (actionTypes a));
    destruct (existsb (fun e => String.eqb (si_type e) "Warning") (securityInfo a));
    destruct (Nat.ltb_spec 5 (length (an_transfers a)));
    destruct (Nat.ltb_spec 1 (length (actionTypes a)));
    simpl; (split; [split; [intros E; try discriminate E; repeat split; lia
                           | intros (? & ? & ? & ? & ?);
                             try discriminate; try lia; reflexivity]
                   | intros ? ?; try discriminate; try lia; reflexivity]).
Qed.

Lemma risk_level_conditions_witness :
  calculateRiskLevel
    {| actionTypes := [JString "Native Transfer"; JString "Transfer SOL"];
       an_transfers := []; an_actions := []; interactions := [];
       securityInfo := [ {| si_type := "Warning"; si_message := "" |} ];
       an_otherInstructions := [] |}
  = "High"%string.
Proof.
  apply (proj2 (risk_level_conditions _)); [reflexivity | simpl; lia].
Defined.

Lemma fold_remember_key_nonempty k keys :
  fold_left remember_key (k :: keys) [] <> [].
Proof.
  rewrite fold_remember_key. simpl. discriminate.
Qed.

(** What a returned result with a transfer has at least. *)
Lemma result_with_transfer w tx s r s' :
  classifyAndExtractInstructions w tx s = (Normal r, s') ->
  transfers r <> [] ->
  (1 <= length (transfers r))%nat
  /\ (2 <= length (types r))%nat
  /\ (1 <= length (programInteractions r))%nat.
Proof.
  intros H Ht.
  pose proof (processFrom_effect _ _ _ _ _ _ _ _ H) as (Hp & _).
  apply processFrom_normal in H as (_ & _ & _ & Hk & Hl & _).
  simpl in Hk, Hl, Hp.
  destruct (tx_instructions tx) as [| i rest] eqn:Ei.
  - simpl in Hk. destruct (transfers r); [contradiction | discriminate Hk].
  - assert (1 <= length (transfers r))%nat
      by (destruct (transfers r); [contradiction | simpl; lia]).
    assert (Hn : programInteractions r <> [])
      by (rewrite Hp; apply fold_remember_key_nonempty).
    destruct (programInteractions r); [contradiction |].
    simpl in *. repeat split; lia.
Qed.

(** X19. A transaction from which the interpreter extracts a transfer is
    never scored 'Simple' and never rated 'Low': the transfer, its program
    and the two action types it brings are enough. This holds for every
    analysis that has at least the extracted transfers, action types and
    interactions, as the one [analyzeTransaction] merges them into and only
    extends afterwards. *)
Theorem extracted_transfer_raises_scores w tx s r s' b :
  classifyAndExtractInstructions w tx s = (Normal r, s') ->
  transfers r <> [] ->
  (length (transfers r) <= length (an_transfers b))%nat ->
  (length (types r) <= length (actionTypes b))%nat ->
  (length (programInteractions r) <= length (interactions b))%nat ->
  calculateComplexityScore b <> "Simple"%string
  /\ calculateRiskLevel b <> "Low"%string.
Proof.
  intros H Ht Lt La Li.
  destruct (result_with_transfer _ _ _ _ _ H Ht) as (H1 & H2 & H3).
  split.
  - unfold calculateComplexityScore. cbv zeta.
    assert (Hp : (10 <= complexity_points b)%nat).
    { unfold complexity_points.
      destruct (Nat.ltb_spec 1 (length (actionTypes b))); lia. }
    destruct (Nat.leb_spec (complexity_points b) 5); [lia |].
    destruct (Nat.leb_spec (complexity_points b) 15); [discriminate |].
    destruct (Nat.leb_spec (complexity_points b) 30); discriminate.
  - unfold calculateRiskLevel. cbv zeta.
    assert (Hf : (1 <= risk_factors b)%nat).
    { unfold risk_factors.
      destruct (Nat.ltb_spec 1 (length (actionTypes b))); lia. }
    destruct (risk_factors b) as [| n]; [lia |].
    simpl. destruct n as [| [| n]]; discriminate.
Qed.

Lemma extracted_transfer_raises_scores_witness :
  let r := result_of (classifyAndExtractInstructions failing_world
                        {| tx_instructions := [IsParsed sol_transfer];
                           tx_innerInstructions := None |} initial) in
  calculateComplexityScore (addExtracted empty_analysis r) <> "Simple"%string
  /\ calculateRiskLevel (addExtracted empty_analysis r) <> "Low"%string.
Proof.
  intros r.
  apply (extracted_transfer_raises_scores failing_world
           {| tx_instructions := [IsParsed sol_transfer];
              tx_innerInstructions := None |} initial r initial).
  - vm_compute. reflexivity.
  - vm_compute. discriminate.
  - vm_compute. lia.
  - vm_compute. lia.
  - vm_compute. lia.
Defined.

(** ** Properties of the balance check in route.ts *)

Lemma changed_balance_has_a_sign d :
  number_lt (of_Z 0) (Math_abs d) = true ->
  (number_lt d (of_Z 0) = true /\ number_lt (of_Z 0) d = false)
  \/ (number_lt d (of_Z 0) = false /\ number_lt (of_Z 0) d = true).
Proof.
  destruct d as [sg | sg | | sg m e]; try destruct sg;
    vm_compute; auto; discriminate.
Qed.

Lemma sub_of_missing x : number_sub x NaN = NaN /\ number_sub NaN x = NaN.
Proof. destruct x as [sg | sg | | sg m e]; try destruct sg; split; reflexivity. Qed.






Lemma balanceCheckFrom_length accountKeys pre post : forall i,
  (length (balanceCheckFrom i accountKeys pre post) <= length accountKeys)%nat.
Proof.
  induction accountKeys as [| key rest IH]; intros i; simpl; [lia |].
  rewrite length_app. specialize (IH (S i)).
  destruct (number_lt _ _ && negb _); simpl; lia.
Qed.

(** X21. The first account, the fee payer, is never reported, whatever
    its balance did; an account without a recorded balance is not reported
    either. So the check reports fewer transfers than there are accounts,
    and none when a balance array is empty. *)
Theorem fee_payer_is_never_reported key rest pre post :
  balanceCheckFrom 0 (key :: rest) pre post = balanceCheckFrom 1 rest pre post
  /\ (length (balanceCheckFrom 0 (key :: rest) pre post) <= length rest)%nat
  /\ balanceCheckFrom 0 (key :: rest) [] post = []
  /\ balanceCheckFrom 0 (key :: rest) pre [] = [].
Proof.
  assert (Hfirst : forall pre0 post0,
    balanceCheckFrom 0 (key :: rest) pre0 post0 = balanceCheckFrom 1 rest pre0 post0).
  { intros pre0 post0. simpl. rewrite andb_false_r. reflexivity. }
  assert (Hmissing : forall keys i pre0 post0,
    (pre0 = [] \/ post0 = []) -> balanceCheckFrom i keys pre0 post0 = []).
  { induction keys as [| k keys IH]; intros i pre0 post0 Hm; simpl; [reflexivity |].
    rewrite (IH (S i) pre0 post0 Hm), app_nil_r.
    assert (Hn : number_sub (element post0 i) (element pre0 i) = NaN).
    { assert (He : element [] i = NaN) by (unfold element; destruct i; reflexivity).
      destruct Hm as [-> | ->]; rewrite He;
        [apply (proj1 (sub_of_missing _)) | apply (proj2 (sub_of_missing _))]. }
    rewrite Hn. reflexivity. }
  split; [apply Hfirst |]. split; [rewrite Hfirst; apply balanceCheckFrom_length |].
  split; apply Hmissing; auto.
Qed.

Lemma native_count_app l1 l2 :
  native_count (l1 ++ l2) = (native_count l1 + native_count l2)%nat.
Proof. unfold native_count. rewrite map_app, List.filter_app, length_app. reflexivity. Qed.

Lemma balance_transfers_all_native accountKeys pre post : forall i,
  native_count (balanceCheckFrom i accountKeys pre post)
  = length (balanceCheckFrom i accountKeys pre post).
Proof.
  induction accountKeys as [| key rest IH]; intros i; [reflexivity |].
  cbn [balanceCheckFrom]. rewrite native_count_app, length_app, IH.
  destruct (number_lt _ _ && negb _); reflexivity.
Qed.

Lemma native_kinds_count rest :
  length (List.filter is_Native (flat_map transfer_kinds rest))
  = length (List.filter native_instruction rest).
Proof.
  induction rest as [| i rest IH]; [reflexivity |].
  cbn [flat_map List.filter]. rewrite List.filter_app, length_app, IH.
  destruct i as [p | p]; simpl; [| reflexivity].
  destruct (is_native_transfer p); [reflexivity |].
  destruct (is_token_transfer p); [| reflexivity].
  destruct (nft_shape (info_or_none p)); reflexivity.
Qed.

(** X22. Native transfers are counted from both sources without
    reconciliation: after the balance check and the merge of the extracted
    instructions the analysis holds one Native record for every reported
    balance change and one more for every system transfer instruction. *)
Theorem native_transfers_are_added_up w tx s r s' accountKeys pre post a :
  classifyAndExtractInstructions w tx s = (Normal r, s') ->
  native_count
    (an_transfers (addExtracted
                     (balanceCheck accountKeys (Some pre) (Some post) a) r))
  = (native_count (an_transfers a)
     + length (balanceCheckFrom 0 accountKeys pre post)
     + length (List.filter native_instruction (tx_instructions tx)))%nat.
Proof.
  intros H. apply processFrom_normal in H as (_ & _ & _ & Hk & _). simpl in Hk.
  simpl. rewrite !native_count_app, balance_transfers_all_native.
  unfold native_count at 2. rewrite Hk, native_kinds_count. reflexivity.
Qed.

Lemma native_transfers_are_added_up_witness :
  let r := result_of (classifyAndExtractInstructions failing_world
                        {| tx_instructions := [IsParsed sol_transfer];
                           tx_innerInstructions := None |} initial) in
  native_count
    (an_transfers
       (addExtracted
          (balanceCheck ["Alice"; "Bob"]%string
             (Some [of_Z 2000000000; of_Z 0])
             (Some [of_Z 499995000; of_Z 1500000000]) empty_analysis) r))
  = 2%nat.
Proof.
  intros r.
  rewrite (native_transfers_are_added_up failing_world
             {| tx_instructions := [IsParsed sol_transfer];
                tx_innerInstructions := None |} initial r initial).
  - vm_compute. reflexivity.
  - vm_compute. reflexivity.
Defined.

(** ** Properties of the chain manager *)

Import ChainManager.

(** The loop over the endpoints, in full. *)
Lemma tryEndpoints_outcome e name rpcs : forall errors m,
  match tryEndpoints e name rpcs errors m with
  | (Normal c, m') =>
      exists before after,
        rpcs = before ++ c :: after
        /\ tried m' = tried m ++ before ++ [c]
        /\ connectionCache m' = <[name := c]> (connectionCache m)
        /\ networks m' = networks m
        /\ attempt e (length (tried m) + length before) c = None
        /\ (forall j x, nth_error before j = Some x ->
            attempt e (length (tried m) + j) x <> None)
  | (Throw _, m') =>
      tried m' = tried m ++ rpcs
      /\ connectionCache m' = connectionCache m
      /\ networks m' = networks m
      /\ (forall j x, nth_error rpcs j = Some x ->
          attempt e (length (tried m) + j) x <> None)
  end.
Proof.
  induction rpcs as [| endpoint rest IH]; intros errors m; simpl.
  - rewrite app_nil_r. repeat split. intros [| j] x H; discriminate H.
  - destruct (attempt e (length (tried m)) endpoint) as [message |] eqn:Ea.
    + specialize (IH (errors ++ [message])
                     {| networks := networks m;
                        connectionCache := connectionCache m;
                        tried := tried m ++ [endpoint] |}).
      destruct (tryEndpoints e name rest (errors ++ [message]) _) as [[c | msg] m'].
      * destruct IH as (before & after & -> & Ht & Hc & Hn & Hok & Hfail).
        simpl in *. rewrite length_app in Hok. simpl in Hok.
        exists (endpoint :: before), after. simpl.
        rewrite Ht, <- app_assoc. simpl.
        repeat split; [exact Hc | exact Hn | | ].
        -- rewrite <- Hok. f_equal. lia.
        -- intros [| j] x Hx; simpl in Hx.
           ++ inversion Hx; subst. rewrite Nat.add_0_r, Ea. discriminate.
           ++ specialize (Hfail j x Hx). rewrite length_app in Hfail.
              simpl in Hfail. replace (length (tried m) + S j)%nat
                with (length (tried m) + 1 + j)%nat by lia. exact Hfail.
      * destruct IH as (Ht & Hc & Hn & Hfail). simpl in *.
        rewrite Ht, <- app_assoc. simpl. repeat split; [exact Hc | exact Hn |].
        intros [| j] x Hx; simpl in Hx.
        -- inversion Hx; subst. rewrite Nat.add_0_r, Ea. discriminate.
        -- specialize (Hfail j x Hx). rewrite length_app in Hfail.
           simpl in Hfail. replace (length (tried m) + S j)%nat
             with (length (tried m) + 1 + j)%nat by lia. exact Hfail.
    + exists [], rest. simpl. rewrite Nat.add_0_r.
      repeat split; [exact Ea |]. intros [| j] x H; discriminate H.
Qed.

(** X23. Failover takes the first endpoint that answers: when nothing is
    cached for the cluster, a returned connection is an endpoint of the
    cluster's network; every endpoint listed before it was tried, in
    order, and failed; no endpoint after it was tried; and it is now cached
    under the cluster. *)
Theorem first_answering_endpoint_is_chosen e name m network c m' :
  connectionCache m !! name = None ->
  getNetwork m name = Some network ->
  getConnection e name m = (Normal c, m') ->
  exists before after,
    rpc network = before ++ c :: after
    /\ tried m' = tried m ++ before ++ [c]
    /\ attempt e (length (tried m) + length before) c = None
    /\ (forall j x, nth_error before j = Some x ->
        attempt e (length (tried m) + j) x <> None)
    /\ connectionCache m' !! name = Some c.
Proof.
  intros Hc Hn. unfold getConnection. rewrite Hc, Hn.
  destruct (rpc network) as [| endpoint rest] eqn:Er; [discriminate |].
  intros H. pose proof (tryEndpoints_outcome e name (endpoint :: rest) [] m) as T.
  rewrite H in T. destruct T as (before & after & E & Ht & Hcache & _ & Hok & Hfail).
  exists before, after. repeat split; auto.
  rewrite Hcache. apply lookup_insert_eq.
Qed.

Lemma first_answering_endpoint_is_chosen_witness :
  let run := getConnection second_answers "devnet" two_endpoint_manager in
  fst run = Normal "https://second.example"%string
  /\ tried (snd run) = ["https://first.example"; "https://second.example"]%string.
Proof.
  intros run.
  destruct (first_answering_endpoint_is_chosen second_answers "devnet"
              two_endpoint_manager
              {| net_name := "Solana Devnet"; cluster := "devnet";
                 nativeCurrency :=
                   {| currency_name := "Solana"; currency_symbol := "SOL";
                      currency_decimals := 9 |};
                 rpc := [ "https://first.example"; "https://second.example" ]%string |}
              "https://second.example"%string (snd run))
    as (before & after & _ & Ht & _);
    [reflexivity | reflexivity | vm_compute; reflexivity |].
  split; [vm_compute; reflexivity |].
  vm_compute. reflexivity.
Defined.

(** X24. A cached connection is sticky: once [getConnection] has returned
    a connection for a cluster, every later call for that cluster returns
    the same one without trying any endpoint, whatever the endpoints now
    answer, until the cache is cleared. *)
Theorem connection_is_sticky e name m c m' :
  getConnection e name m = (Normal c, m') ->
  forall e', getConnection e' name m' = (Normal c, m').
Proof.
  unfold getConnection at 1.
  destruct (connectionCache m !! name) as [cached |] eqn:Hc.
  - intros H. inversion H; subst. intros e'. unfold getConnection. rewrite Hc.
    reflexivity.
  - destruct (getNetwork m name) as [network |]; [| discriminate].
    destruct (rpc network) as [| endpoint rest]; [discriminate |].
    intros H. pose proof (tryEndpoints_outcome e name (endpoint :: rest) [] m) as T.
    rewrite H in T. destruct T as (_ & _ & _ & _ & Hcache & _).
    intros e'. unfold getConnection. rewrite Hcache, lookup_insert_eq. reflexivity.
Qed.

Lemma connection_is_sticky_witness :
  let run := getConnection second_answers "devnet" two_endpoint_manager in
  getConnection none_answers "devnet" (snd run)
  = (Normal "https://second.example"%string, snd run).
Proof.
  intros run.
  apply (connection_is_sticky second_answers "devnet" two_endpoint_manager).
  vm_compute. reflexivity.
Defined.

(** X25. A failed [getConnection] caches nothing. It fails in three ways
    only: the cluster is not among the networks, in which case no endpoint
    is tried; its network lists no endpoint; or every endpoint of its
    network was tried once, in order, and failed. *)
Theorem failed_connection_caches_nothing e name m msg m' :
  getConnection e name m = (Throw msg, m') ->
  connectionCache m' = connectionCache m
  /\ connectionCache m !! name = None
  /\ ((getNetwork m name = None /\ m' = m
       /\ msg = ("Network " ++ name ++ " not found")%string)
      \/ (exists network,
            getNetwork m name = Some network /\ rpc network = [] /\ m' = m)
      \/ (exists network,
            getNetwork m name = Some network
            /\ tried m' = tried m ++ rpc network
            /\ forall j x, nth_error (rpc network) j = Some x ->
               attempt e (length (tried m) + j) x <> None)).
Proof.
  unfold getConnection.
  destruct (connectionCache m !! name) as [cached |] eqn:Hc; [discriminate |].
  destruct (getNetwork m name) as [network |] eqn:Hn.
  - destruct (rpc network) as [| endpoint rest] eqn:Er.
    + intros H. inversion H; subst. repeat split.
      right. left. exists network. auto.
    + intros H.
      pose proof (tryEndpoints_outcome e name (endpoint :: rest) [] m) as T.
      rewrite H in T. destruct T as (Ht & Hcache & _ & Hfail).
      repeat split; [exact Hcache |]. right. right. exists network.
      rewrite Er. auto.
  - intros H. inversion H; subst. repeat split. left. auto.
Qed.

Lemma failed_connection_caches_nothing_witness :
  let run := getConnection none_answers "devnet" two_endpoint_manager in
  connectionCache (snd run) = ∅
  /\ tried (snd run) = ["https://first.example"; "https://second.example"]%string.
Proof.
  intros run.
  destruct (failed_connection_caches_nothing none_answers "devnet"
              two_endpoint_manager
              "All RPCs failed for network devnet. Errors: fetch failed, fetch failed"
              (snd run)) as (Hc & _ & _).
  - vm_compute. reflexivity.
  - split; [exact Hc | vm_compute; reflexivity].
Defined.

(** ** Further properties of the transfer extractors *)

(** Above exponent 22 the value follows the runtime's power: with a
    runtime that returns 9.999999999999999e+25 for [Math.pow(10, 26)], a
    raw amount of [10^26] at 26 decimals is printed "1.0000000000000002",
    where division by the nearest Number to [10^26] would print "1". *)
Lemma value_follows_the_runtime_power :
  let run := parseTokenTransfer imprecise_power_world raw_transfer_1e26 initial in
  (exists t, fst run = Normal (Some t)
             /\ value t = Some "1.0000000000000002"%string)
  /\ toString (div (of_Z (10 ^ 26)) (pow10 26)) = "1"%string.
Proof.
  vm_compute. split; [eexists; split; reflexivity | reflexivity].
Qed.

(** X26. A token amount object with a null display amount makes
    [parseTokenTransfer] throw, but only after the metadata has been
    resolved: the lookup has been made and its record stays cached. *)
Theorem null_display_amount_throws_after_lookup w p s i ta :
  type_is p "transferChecked" || type_is p "transfer" = true ->
  info (parsed p) = Some i ->
  tokenAmount i = Some ta ->
  ta_uiAmount ta = None ->
  exists e,
    parseTokenTransfer w p s
    = (Throw e, snd (getTokenMetadata w (str_or (mint i) (token i)) "SPL" s)).
Proof.
  intros Ht Hi Hta Hu.
  rewrite (parseTokenTransfer_recognized w p s i Ht Hi).
  unfold tokenTransferValue. rewrite Hta, Hu. eauto.
Qed.

Lemma null_display_amount_throws_after_lookup_witness :
  let run := parseTokenTransfer (resolving_world 24)
               transfer_without_display_amount initial in
  (exists e, fst run = Throw e)
  /\ mintLookups (snd run) = [Some "MintM"%string]
  /\ metadataCache (snd run) !! "MintM-SPL"%string <> None.
Proof.
  intros run.
  destruct (null_display_amount_throws_after_lookup (resolving_world 24)
              transfer_without_display_amount initial
              (info_or_none transfer_without_display_amount)
              {| ta_decimals := 24; ta_uiAmount := None |})
    as (e & E); [reflexivity | reflexivity | reflexivity | reflexivity |].
  unfold run. rewrite E. split; [exists e; reflexivity |].
  split; [vm_compute; reflexivity | vm_compute; discriminate].
Defined.

Lemma parseSystemInstruction_shaped p t :
  parseSystemInstruction p = Normal (Some t) -> well_shaped t = true.
Proof.
  unfold parseSystemInstruction, info_of.
  destruct (type_is p "transfer" || type_is p "transferWithSeed");
    [| discriminate].
  destruct (info (parsed p)); [| discriminate].
  intros H. inversion H; subst. reflexivity.
Qed.

Lemma parseTokenTransfer_shaped w p s t s1 :
  parseTokenTransfer w p s = (Normal (Some t), s1) -> well_shaped t = true.
Proof.
  destruct (type_is p "transferChecked" || type_is p "transfer") eqn:Ht.
  - destruct (info (parsed p)) as [i |] eqn:Hi.
    + rewrite (parseTokenTransfer_recognized w p s i Ht Hi).
      destruct (tokenTransferValue w i _); [| discriminate].
      intros H. inversion H; subst. reflexivity.
    + unfold parseTokenTransfer, info_of. rewrite Ht, Hi. discriminate.
  - unfold parseTokenTransfer. rewrite Ht. discriminate.
Qed.

Lemma parseNFTTransfer_shaped w p s t s1 :
  parseNFTTransfer w p s = (Normal (Some t), s1) -> well_shaped t = true.
Proof.
  destruct (type_is p "transferChecked" || type_is p "transfer") eqn:Ht.
  - destruct (info (parsed p)) as [i |] eqn:Hi.
    + rewrite (parseNFTTransfer_recognized w p s i Ht Hi).
      destruct (nft_shape i); [| discriminate].
      intros H. inversion H; subst. reflexivity.
    + unfold parseNFTTransfer, info_of. rewrite Ht, Hi. discriminate.
  - unfold parseNFTTransfer. rewrite Ht. discriminate.
Qed.

Lemma push_if_shaped o label r :
  (forall t, o = Some t -> well_shaped t = true) ->
  forallb well_shaped (transfers r) = true ->
  forallb well_shaped (transfers (push_if o label r)) = true.
Proof.
  intros Ho Hr. destruct o as [t |]; simpl; [| exact Hr].
  rewrite forallb_app, Hr. simpl. rewrite (Ho t eq_refl). reflexivity.
Qed.

Lemma extractTransfers_shaped w i r s r' s' :
  extractTransfers w i r s = (Normal r', s') ->
  forallb well_shaped (transfers r) = true ->
  forallb well_shaped (transfers r') = true.
Proof.
  unfold extractTransfers. intros H Hr.
  destruct (String.eqb (program i) "system").
  - apply bind_normal in H as (o & s1 & H1 & H). inversion H; subst.
    apply push_if_shaped; [| exact Hr]. intros t ->.
    unfold of_completion in H1. inversion H1 as [E].
    apply (parseSystemInstruction_shaped i). exact E.
  - destruct (String.eqb (program i) "spl-token").
    + apply bind_normal in H as (o & s1 & H1 & H).
      apply bind_normal in H as (n & s2 & H2 & H). inversion H; subst.
      apply push_if_shaped; [intros t -> | apply push_if_shaped; [intros t -> |]].
      * eapply parseNFTTransfer_shaped. exact H2.
      * eapply parseTokenTransfer_shaped. exact H1.
      * exact Hr.
    + inversion H; subst. exact Hr.
Qed.

(** X27. Every transfer of a returned result has the shape of its kind: a
    Native transfer carries the fixed SOL descriptor, a value and no token
    id; an SPL transfer carries resolved metadata, a value and no token
    id; an NFT transfer carries resolved metadata and no value. *)
Theorem transfers_are_well_shaped w tx s r s' :
  classifyAndExtractInstructions w tx s = (Normal r, s') ->
  forallb well_shaped (transfers r) = true.
Proof.
  unfold classifyAndExtractInstructions.
  assert (G : forall rest idx r0 s0,
    processFrom w tx idx rest r0 s0 = (Normal r, s') ->
    forallb well_shaped (transfers r0) = true ->
    forallb well_shaped (transfers r) = true).
  { induction rest as [| i rest IH]; intros idx r0 s0 H Hr.
    - inversion H; subst. exact Hr.
    - simpl in H. apply bind_normal in H as (r1 & s1 & H1 & H).
      apply (IH _ _ _ H). unfold processInstruction in H1.
      destruct i as [p | p].
      + apply bind_normal in H1 as (r2 & s2 & H2 & H1). inversion H1; subst.
        simpl. eapply extractTransfers_shaped; [exact H2 | exact Hr].
      + inversion H1; subst. exact Hr. }
  intros H. apply (G _ _ _ _ H). reflexivity.
Qed.

Lemma transfers_are_well_shaped_witness :
  forallb well_shaped
    (transfers (result_of (classifyAndExtractInstructions failing_world
                             mixed_transaction initial))) = true.
Proof.
  apply (transfers_are_well_shaped failing_world mixed_transaction initial _
           (snd (classifyAndExtractInstructions failing_world
                   mixed_transaction initial))).
  vm_compute. reflexivity.
Defined.
